(** * Yeti observables: tag lifecycle, context store and type guessing

    A shallow embedding of [core/observables/observable.py] (class
    [Observable]) and the properties of its tagging engine.

    Conventions of the embedding.
    - Timestamps ([datetime]) and durations ([timedelta]) are integers in
      one common unit; a nullable field is an [option].
    - Every method reads the wall clock ([datetime.utcnow()]); the reading
      is the argument [now] of the embedded method, one reading per call.
    - The document store holds the observable the method is called on
      ([self]), the tag catalog ([Tag.objects]), the entities
      ([Entity.objects]) and the links.  [self.modify(query, update)] is an
      update of the stored document that reports whether the query matched;
      calls are sequential, so the in-memory [self] and the stored document
      agree.
    - A catalog [Tag] is referred to by its [name], which the catalog keeps
      unique; [produces] (a list of references to tags) is the list of the
      names referred to.
    - A raised exception is an outcome [Raised] that keeps the store as it
      was when the exception left the method.
    - [iterify] wraps a single value into a list; the embedded methods
      take the list. *)

From Stdlib Require Import List String Ascii ZArith Bool Arith Lia.
From Stdlib Require Import Permutation Sorted OrdersEx.
Import ListNotations.

Local Open Scope string_scope.
Local Open Scope Z_scope.
Local Open Scope list_scope.

(** ** Python built-ins used by the source *)

Module Py.

(** [str.isspace] on the ASCII range. *)
Definition isspace (c : ascii) : bool :=
  let n := nat_of_ascii c in
  ((9 <=? n)%nat && (n <=? 13)%nat) || ((28 <=? n)%nat && (n <=? 32)%nat).

Fixpoint lstrip (s : string) : string :=
  match s with
  | EmptyString => EmptyString
  | String c r => if isspace c then lstrip r else s
  end.

Fixpoint rstrip (s : string) : string :=
  match s with
  | EmptyString => EmptyString
  | String c r =>
      match rstrip r with
      | EmptyString => if isspace c then EmptyString else String c EmptyString
      | r' => String c r'
      end
  end.

(** [s.strip()] *)
Definition strip (s : string) : string := rstrip (lstrip s).

(** Truth value of a string: [if s]. *)
Definition str_truthy (s : string) : bool := negb (s =? "")%string.

(** Truth value of an optional [timedelta]: [None] and the zero duration
    are false. *)
Definition td_truthy (d : option Z) : bool :=
  match d with
  | None => false
  | Some x => negb (x =? 0)
  end.

(** [x in l] for strings. *)
Definition mem (x : string) (l : list string) : bool :=
  existsb (String.eqb x) l.

(** [set(a) - set(b)], listed in the order of first occurrence in [a]. *)
Definition set_difference (a b : list string) : list string :=
  nodup string_dec (filter (fun x => negb (mem x b)) a).

(** [sorted(items, key=operator.itemgetter(0))]: a stable insertion sort
    on the key of each pair. *)
Fixpoint insert_item {V : Type} (kv : string * V) (l : list (string * V))
  : list (string * V) :=
  match l with
  | [] => [kv]
  | kv' :: r =>
      if (fst kv' <=? fst kv)%string then kv' :: insert_item kv r
      else kv :: l
  end.

Definition sorted_items {V : Type} (l : list (string * V)) : list (string * V) :=
  fold_left (fun acc kv => insert_item kv acc) l [].

(** A [dict] with insertion order: [d.get(k, default)], [d[k] = v] and
    [d.pop(k)]. *)
Section Dict.
Context {K V : Type} (eqb : K -> K -> bool).

Fixpoint dict_get (d : list (K * V)) (k : K) (default : V) : V :=
  match d with
  | [] => default
  | (k', v) :: r => if eqb k' k then v else dict_get r k default
  end.

Fixpoint dict_set (d : list (K * V)) (k : K) (v : V) : list (K * V) :=
  match d with
  | [] => [(k, v)]
  | (k', v') :: r =>
      if eqb k' k then (k', v) :: r else (k', v') :: dict_set r k v
  end.

Definition dict_pop (d : list (K * V)) (k : K) : list (K * V) :=
  filter (fun kv => negb (eqb (fst kv) k)) d.
End Dict.

End Py.

(** ** Exceptions and outcomes *)

Inductive exn : Type :=
| AssertionError
| ObservableValidationError (msg : string)
| DoesNotExist
| MultipleObjectsReturned.

(** ** Documents *)

(** [ObservableTag]: a tag as applied to one observable. *)
Record ObservableTag : Type := mkObservableTag {
  name : string;
  first_seen : Z;
  last_seen : Z;
  expiration : option Z;
  fresh : bool
}.

(** [Tag]: a catalog entry. *)
Record Tag : Type := mkTag {
  tag_name : string;
  count : Z;
  produces : list string;
  replaces : list string;
  default_expiration : option Z
}.

Record Entity : Type := mkEntity {
  entity_name : string;
  entity_tags : list string
}.

Record Link : Type := mkLink {
  link_src : string;
  link_dst : string;
  link_type : string;
  link_label : string;
  link_first_seen : Z;
  link_last_seen : Z
}.

(** A context entry is a [dict] from field names to values. *)
Definition Context : Type := list (string * string).

Record Observable : Type := mkObservable {
  value : string;
  sources : list string;
  context : list Context;
  tags : list ObservableTag;
  last_tagged : option Z
}.

Record Store : Type := mkStore {
  self : Observable;
  tag_objects : list Tag;
  entity_objects : list Entity;
  links : list Link
}.

Inductive outcome (A : Type) : Type :=
| Returned (a : A) (st : Store)
| Raised (e : exn) (st : Store).
Arguments Returned {A} a st.
Arguments Raised {A} e st.

Definition store_of {A : Type} (r : outcome A) : Store :=
  match r with
  | Returned _ st => st
  | Raised _ st => st
  end.

Definition set_tags (o : Observable) (ts : list ObservableTag) : Observable :=
  mkObservable (value o) (sources o) (context o) ts (last_tagged o).

Definition set_context (o : Observable) (cs : list Context) : Observable :=
  mkObservable (value o) (sources o) cs (tags o) (last_tagged o).

Definition set_last_tagged (o : Observable) (t : option Z) : Observable :=
  mkObservable (value o) (sources o) (context o) (tags o) t.

Definition set_sources (o : Observable) (ss : list string) : Observable :=
  mkObservable (value o) ss (context o) (tags o) (last_tagged o).

Definition with_self (st : Store) (o : Observable) : Store :=
  mkStore o (tag_objects st) (entity_objects st) (links st).

Definition with_tag_objects (st : Store) (c : list Tag) : Store :=
  mkStore (self st) c (entity_objects st) (links st).

Definition with_links (st : Store) (l : list Link) : Store :=
  mkStore (self st) (tag_objects st) (entity_objects st) l.

Definition tag_names (ts : list ObservableTag) : list string := map name ts.

Definition named (n : string) (t : ObservableTag) : bool := (name t =? n)%string.

(** ** Store primitives on the embedded tag list *)

(** [$pull: {tags: {name: n}}] removes every entry named [n]. *)
Definition pull_name (n : string) (ts : list ObservableTag) : list ObservableTag :=
  filter (fun t => negb (named n t)) ts.

(** [$set: {"tags.$.field": v}] under a query on ["tags.name": n]: the
    positional operator designates the first entry named [n]. *)
Fixpoint set_positional (n : string) (f : ObservableTag -> ObservableTag)
    (ts : list ObservableTag) : list ObservableTag :=
  match ts with
  | [] => []
  | t :: r => if named n t then f t :: r else t :: set_positional n f r
  end.

(** [self.modify(query, update)]: when the stored document satisfies the
    query it is updated and [True] is returned; otherwise nothing changes
    and [False] is returned. *)
Definition modify (query : Observable -> bool) (update : Observable -> Observable)
    (st : Store) : bool * Store :=
  if query (self st) then (true, with_self st (update (self st)))
  else (false, st).

(** [set__tags__S__fresh=True, set__tags__S__last_seen=now] *)
Definition refresh_entry (now : Z) (t : ObservableTag) : ObservableTag :=
  mkObservableTag (name t) (first_seen t) now (expiration t) true.

(** [set__tags__S__name=n] *)
Definition rename_entry (n : string) (t : ObservableTag) : ObservableTag :=
  mkObservableTag n (first_seen t) (last_seen t) (expiration t) (fresh t).

(** [set__tags__S__last_seen=now] *)
Definition touch_entry (now : Z) (t : ObservableTag) : ObservableTag :=
  mkObservableTag (name t) (first_seen t) now (expiration t) (fresh t).

(** [tag.fresh = False] *)
Definition stale_entry (t : ObservableTag) : ObservableTag :=
  mkObservableTag (name t) (first_seen t) (last_seen t) (expiration t) false.

(** Modelled from the spec: the constructor [ObservableTag(name=, expiration=)]
    (class [ObservableTag] is not among the sources): a new application has
    [firstSeen = lastSeen = now], the given expiration and [fresh = true]. *)
Definition new_ObservableTag (now : Z) (n : string) (e : option Z) : ObservableTag :=
  mkObservableTag n now now e true.

(** [tag.modify(inc__count=1)] on the catalog document named [n]. *)
Fixpoint inc_count (n : string) (c : list Tag) : list Tag :=
  match c with
  | [] => []
  | t :: r =>
      if (tag_name t =? n)%string
      then mkTag (tag_name t) (count t + 1) (produces t) (replaces t)
             (default_expiration t) :: r
      else t :: inc_count n r
  end.

(** Modelled from the spec: [Node.active_link_to(e, type, label,
    clean_old=True)] (class [Node] is not among the sources): the edges of
    the same type between the same endpoints are removed, then the new edge
    is inserted. *)
Definition active_link_to (now : Z) (e : Entity) (ty label : string) (st : Store)
  : Store :=
  let src := value (self st) in
  let same l :=
    (link_src l =? src)%string && (link_dst l =? entity_name e)%string
    && (link_type l =? ty)%string in
  with_links st
    (filter (fun l => negb (same l)) (links st)
     ++ [mkLink src (entity_name e) ty label now now]).

(** [Entity.objects(tags__in=[n])] *)
Definition entities_tagged (n : string) (st : Store) : list Entity :=
  filter (fun e => Py.mem n (entity_tags e)) (entity_objects st).

(** ** The methods of [Observable] *)

Inductive ObservableClass : Type := Url | Ip | Email | Hostname | Hash.

Section Methods.

(** [Tag.clean], which normalises [Tag.name] in place, the default of
    [Tag.default_expiration] and the [check_type] of each concrete class
    are defined outside the sources at hand; the methods are embedded
    for any of them. *)
Variable clean : string -> string.
Variable Tag_default_expiration : option Z.
Variable check_type : ObservableClass -> string -> bool.

(** *** [guess_type] *)

Definition guess_type (s : string) : exn + option ObservableClass :=
  if Py.str_truthy s && negb (Py.strip s =? "")%string then
    match find (fun t => check_type t s) [Url; Ip; Email; Hostname; Hash] with
    | Some t => inr (Some t)
    | None =>
        inl (ObservableValidationError
               (s ++ " was not recognized as a viable datatype")%string)
    end
  else inr None.

(** *** [add_context], [remove_context] *)

(** ['source' in context] *)
Definition has_key (k : string) (c : Context) : bool :=
  existsb (fun kv => (fst kv =? k)%string) c.

(** [context['source']], when present. *)
Definition get_key (k : string) (c : Context) : option string :=
  match find (fun kv => (fst kv =? k)%string) c with
  | Some kv => Some (snd kv)
  | None => None
  end.

(** Equality of two stored context documents: same fields, same values,
    same order. *)
Fixpoint context_eqb (a b : Context) : bool :=
  match a, b with
  | [], [] => true
  | (k, v) :: a', (k', v') :: b' =>
      (k =? k')%string && (v =? v')%string && context_eqb a' b'
  | _, _ => false
  end.

(** [pull__context__source=s] *)
Definition pull_context_source (s : string) (cs : list Context) : list Context :=
  filter (fun c => match get_key "source" c with
                   | Some v => negb (v =? s)%string
                   | None => true
                   end) cs.

(** [add_to_set__context=c] *)
Definition add_to_set_context (c : Context) (cs : list Context) : list Context :=
  if existsb (context_eqb c) cs then cs else cs ++ [c].

Definition add_context (ctx : Context) (replace_source : option string)
    (st : Store) : outcome Observable :=
  if negb (has_key "source" ctx) then Raised AssertionError st
  else
    let ctx := Py.sorted_items ctx in
    let st1 :=
      match replace_source with
      | Some s =>
          if Py.str_truthy s
          then with_self st (set_context (self st)
                               (pull_context_source s (context (self st))))
          else st
      | None => st
      end in
    let st2 :=
      with_self st1 (set_context (self st1)
                       (add_to_set_context ctx (context (self st1)))) in
    Returned (self st2) st2.

(** The condition of [$pull: {context: cond}] on one element of the
    array: the document [cond] is applied to the element as a query, so
    the element satisfies it when it holds every field of [cond] with the
    same value, whatever other fields it has. *)
Definition context_matches (cond c : Context) : bool :=
  forallb
    (fun kv => match get_key (fst kv) c with
               | Some v => (v =? snd kv)%string
               | None => false
               end)
    cond.

(** [pull__context=context] *)
Definition remove_context (ctx : Context) (st : Store) : outcome Observable :=
  let ctx := Py.sorted_items ctx in
  let st1 :=
    with_self st (set_context (self st)
                    (filter (fun c => negb (context_matches ctx c))
                       (context (self st)))) in
  Returned (self st1) st1.

(** *** [get_tags], [has_tag], [fresh_tags] *)

Definition get_tags (o : Observable) (fresh_only : bool) : list string :=
  map name (filter (fun t => fresh t || negb fresh_only) (tags o)).

(** [get_tags()] with the default [fresh=True]. *)
Definition get_tags_default (o : Observable) : list string := get_tags o true.

Definition has_tag (o : Observable) (tag_to_search : string) : bool :=
  existsb (fun t => (name t =? tag_to_search)%string) (tags o).

Definition fresh_tags (o : Observable) : list ObservableTag :=
  filter fresh (tags o).

(** *** [find_tags] *)

(** [Tag.objects.get(name=n)] *)
Definition Tag_get_name (n : string) (st : Store) : exn + Tag :=
  match filter (fun t => (tag_name t =? n)%string) (tag_objects st) with
  | [] => inl DoesNotExist
  | [t] => inr t
  | _ => inl MultipleObjectsReturned
  end.

(** [doc == s] for a document [doc] and a string [s]: a document equals
    only a document of its class with the same id, never a string. *)
Definition document_eq_str (doc s : string) : bool := false.

(** The first loop: [new_tags] is keyed by [Tag] documents; the count
    that is read back is the one stored under [tag], the catalog
    document of the applied tag. *)
Fixpoint find_tags_count (ts : list ObservableTag) (new_tags : list (string * Z))
    (st : Store) : exn + list (string * Z) :=
  match ts with
  | [] => inr new_tags
  | t :: r =>
      match Tag_get_name (name t) st with
      | inl e => inl e
      | inr tag =>
          find_tags_count r
            (fold_left
               (fun d p =>
                  Py.dict_set String.eqb d p
                    (Py.dict_get String.eqb d (tag_name tag) 0 + 1))
               (produces tag) new_tags)
            st
      end
  end.

(** The second loop: [for tag in new_tags.copy(): if tag in localtags:
    new_tags.pop(tag)]. *)
Definition find_tags_strip (localtags : list string) (new_tags : list (string * Z))
  : list (string * Z) :=
  fold_left
    (fun d tag =>
       if existsb (document_eq_str tag) localtags
       then Py.dict_pop String.eqb d tag else d)
    (map fst new_tags) new_tags.

Definition find_tags (st : Store) : outcome (list (string * Z)) :=
  match find_tags_count (tags (self st)) [] st with
  | inl e => Raised e st
  | inr new_tags =>
      Returned (find_tags_strip (map name (tags (self st))) new_tags) st
  end.

(** *** [change_tag], [untag] *)

Definition change_tag (now : Z) (old_tag new_tag : string) (st : Store)
  : outcome Observable :=
  let (renamed, st1) :=
    modify (fun o => has_tag o old_tag && negb (has_tag o new_tag))
           (fun o => set_tags o
                       (set_positional old_tag (rename_entry new_tag) (tags o)))
           st in
  if negb renamed then
    let (_, st2) :=
      modify (fun o => has_tag o old_tag)
             (fun o => set_tags o (pull_name old_tag (tags o))) st1 in
    let (_, st3) :=
      modify (fun o => has_tag o new_tag)
             (fun o => set_tags o
                         (set_positional new_tag (touch_entry now) (tags o)))
             st2 in
    Returned (self st3) st3
  else Returned (self st1) st1.

Definition untag (names : list string) (st : Store) : Store :=
  fold_left
    (fun s n =>
       snd (modify (fun _ => true)
                   (fun o => set_tags o (pull_name n (tags o))) s))
    names st.

(** *** [tag] *)

(** The [strict] step: [remove = set([t.name for t in self.tags]) -
    set(new_tags)], then a pull for each name of [remove]. *)
Definition remove_other_tags (new_tags : list string) (st : Store) : Store :=
  fold_left
    (fun s n =>
       snd (modify (fun _ => true)
                   (fun o => set_tags o (pull_name n (tags o))) s))
    (Py.set_difference (map name (tags (self st))) new_tags) st.

(** Modelled from the spec: [Tag.get_or_create(name=n)] (class [Node] is
    not among the sources): the catalog entry of that name, created with
    the defaults of the class when there is none. *)
Definition Tag_get_or_create (n : string) (st : Store) : Tag * Store :=
  match find (fun t => (tag_name t =? n)%string) (tag_objects st) with
  | Some t => (t, st)
  | None =>
      let t := mkTag n 0 [] [] Tag_default_expiration in
      (t, with_tag_objects st (tag_objects st ++ [t]))
  end.

(** [try: tag = Tag.objects.get(replaces=n)
     except DoesNotExist: tag = Tag.get_or_create(name=n)] *)
Definition resolve_tag (n : string) (st : Store) : outcome Tag :=
  match filter (fun t => Py.mem n (replaces t)) (tag_objects st) with
  | [] => let (t, st') := Tag_get_or_create n st in Returned t st'
  | [t] => Returned t st
  | _ => Raised MultipleObjectsReturned st
  end.

(** The body of [for tag in extra_tags]: refresh the entry of that name,
    or push a new one and count the use. *)
Definition apply_tag (now : Z) (expiration : option Z) (n : string) (st : Store)
  : Store :=
  let (matched, st1) :=
    modify (fun o => has_tag o n)
           (fun o => set_tags o
                       (set_positional n (refresh_entry now) (tags o))) st in
  if negb matched then
    let (_, st2) :=
      modify (fun _ => true)
             (fun o => set_tags o
                         (tags o ++ [new_ObservableTag now n expiration])) st1 in
    with_tag_objects st2 (inc_count n (tag_objects st2))
  else st1.

(** [for new_tag in new_tags], with the loop-carried variables
    [expiration] and [tagged]. *)
Fixpoint tag_loop (now : Z) (new_tags : list string) (expiration : option Z)
    (tagged : bool) (st : Store) : outcome bool :=
  match new_tags with
  | [] => Returned tagged st
  | new_tag :: rest =>
      if negb (Py.strip new_tag =? "")%string then
        match resolve_tag (clean new_tag) st with
        | Raised e st' => Raised e st'
        | Returned tag st1 =>
            let expiration :=
              if negb (Py.td_truthy expiration)
              then default_expiration tag else expiration in
            let extra_tags := produces tag ++ [tag_name tag] in
            let st2 :=
              fold_left (fun s e => active_link_to now e "Tagged" "tags" s)
                (entities_tagged (tag_name tag) st1) st1 in
            let st3 :=
              fold_left (fun s t => apply_tag now expiration t s)
                extra_tags st2 in
            tag_loop now rest expiration true st3
        end
      else tag_loop now rest expiration tagged st
  end.

Definition tag (now : Z) (new_tags : list string) (strict : bool)
    (expiration : option Z) (st : Store) : outcome Observable :=
  let st0 := if strict then remove_other_tags new_tags st else st in
  match tag_loop now new_tags expiration false st0 with
  | Raised e st' => Raised e st'
  | Returned tagged st1 =>
      let st2 :=
        if tagged
        then with_self st1 (set_last_tagged (self st1) (Some now))
        else st1 in
      Returned (self st2) st2
  end.

(** *** [expire_tags] *)

(** [tag.expiration and (tag.last_seen + tag.expiration) < now] *)
Definition expired (now : Z) (t : ObservableTag) : bool :=
  match expiration t with
  | Some d => negb (d =? 0) && (last_seen t + d <? now)
  | None => false
  end.

Definition expire_tags (now : Z) (st : Store) : Store :=
  with_self st
    (set_tags (self st)
       (map (fun t => if expired now t then stale_entry t else t)
          (tags (self st)))).

End Methods.

(** ** Sample stores *)

Module Sample.

(** Modelled from the spec: [Tag.clean] is not among the sources; step 1
    of [tag] normalises a raw name by trimming it. *)
Definition clean : string -> string := Py.strip.

Definition Tag_default_expiration : option Z := Some 90.

(** A stand-in for the [check_type] of the concrete classes: dotted
    digits are an [Ip], anything holding a dot a [Hostname]. *)
Definition check_type (c : ObservableClass) (s : string) : bool :=
  match c with
  | Ip => (s =? "1.2.3.4")%string
  | Hostname => (s =? "example.com")%string || (s =? "1.2.3.4")%string
  | _ => false
  end.

Definition entry (n : string) (seen : Z) (e : option Z) (f : bool) : ObservableTag :=
  mkObservableTag n seen seen e f.

Definition observable (ts : list ObservableTag) : Observable :=
  mkObservable "1.2.3.4" ["feed"] [[("ip", "1.2.3.4"); ("source", "feed")]] ts None.

Definition store (ts : list ObservableTag) (c : list Tag) : Store :=
  mkStore (observable ts) c [mkEntity "actor" ["b"]] [].

(** Two catalog tags with different default expirations. *)
Definition catalog_ab : list Tag :=
  [mkTag "a" 0 [] [] (Some 10); mkTag "b" 0 [] [] (Some 20)].

(** Two catalog tags that both produce ["n"]. *)
Definition catalog_n : list Tag :=
  [mkTag "a" 0 ["n"] [] None; mkTag "b" 0 ["n"] [] None; mkTag "n" 0 [] [] None].

(** An observable that holds the tags ["old"] and ["new"]. *)
Definition store_old_new : Store :=
  store [entry "old" 1 None true; entry "new" 2 (Some 5) false] catalog_ab.

(** An observable that holds two entries named ["old"], as two racing
    inserts can leave it. *)
Definition store_old_old : Store :=
  store [entry "old" 1 None true; entry "old" 2 None true] catalog_ab.

(** An observable that holds the tag ["b"] since time 1. *)
Definition store_b : Store := store [entry "b" 1 (Some 20) true] catalog_ab.

(** ["legacy"] is an alias of ["b"]. *)
Definition catalog_alias : list Tag := [mkTag "b" 3 [] ["legacy"] None].

(** An observable that holds the tag ["b"] since time 1, in front of the
    catalog with the alias. *)
Definition store_b_alias : Store := store [entry "b" 1 None true] catalog_alias.

(** An observable without tags, in front of the catalog with the alias. *)
Definition store_alias : Store := store [] catalog_alias.

(** A derivation chain that closes into a cycle: a -> b -> c -> a. *)
Definition catalog_cycle : list Tag :=
  [mkTag "a" 0 ["b"] [] None; mkTag "b" 0 ["c"] [] None; mkTag "c" 0 ["a"] [] None].

(** An observable without tags, in front of the cyclic catalog. *)
Definition store_cycle : Store := store [] catalog_cycle.

End Sample.

(** ** Further methods of [Observable] *)

(** [add_source]: [self.modify(add_to_set__sources=source)]. *)
Definition add_source (source : string) (st : Store) : bool * Store :=
  modify (fun _ => true)
    (fun o =>
       set_sources o
         (if Py.mem source (sources o) then sources o
          else sources o ++ [source]))
    st.

(** [datetime(1970, 1, 1)], the origin of the time line. *)
Definition epoch : Z := 0.

(** An exception of Python itself that a method lets through. *)
Inductive builtin_exn : Type := TypeError.

(** [tag.last_seen > last] where [last] is [datetime(1970, 1, 1)]: the
    dates read back from the store are timezone-aware (the setting in
    which [expire_tags] can compare them with its aware [now]) and the
    epoch built here is naive, so the comparison raises. *)
Definition aware_gt_naive (aware naive : Z) : builtin_exn + bool := inl TypeError.

(** The loop of [get_last_tagged]: [last] is the naive epoch until a
    comparison has succeeded. *)
Fixpoint latest_seen (ts : list ObservableTag) (last : Z) : builtin_exn + Z :=
  match ts with
  | [] => inr last
  | t :: r =>
      match aware_gt_naive (last_seen t) last with
      | inl e => inl e
      | inr b => latest_seen r (if b then last_seen t else last)
      end
  end.

(** [get_last_tagged]: a [datetime] is never false, so [not
    self.last_tagged] holds exactly when the field is [None]; the update
    of [last_tagged] comes after the loop. *)
Definition get_last_tagged (st : Store) : (builtin_exn + Z) * Store :=
  match last_tagged (self st) with
  | None =>
      match latest_seen (tags (self st)) epoch with
      | inl e => (inl e, st)
      | inr last =>
          (inr last, with_self st (set_last_tagged (self st) (Some last)))
      end
  | Some t => (inr t, st)
  end.

(** ** The feed [SSLBlackListCerts]: the tags of a listing reason *)

Module Feed.

(** [s.split(" ")]: the pieces between single spaces, empty pieces kept. *)
Fixpoint split_space (s : string) : list string :=
  match s with
  | EmptyString => [EmptyString]
  | String c r =>
      if Ascii.eqb c " "%char then EmptyString :: split_space r
      else match split_space r with
           | h :: t => String c h :: t
           | [] => [String c EmptyString]
           end
  end.

(** [str.lower] on the ASCII range. *)
Definition lower_ascii (c : ascii) : ascii :=
  let n := nat_of_ascii c in
  if ((65 <=? n)%nat && (n <=? 90)%nat) then ascii_of_nat (n + 32) else c.

Fixpoint lower (s : string) : string :=
  match s with
  | EmptyString => EmptyString
  | String c r => String (lower_ascii c) (lower r)
  end.

(** [TYPE_DICT.get(_type)]: a missing key gives [None], which is false in
    the test, like an empty list. *)
Definition TYPE_DICT (ty : string) : list string :=
  if (ty =? "MITM")%string then ["mitm"]
  else if (ty =? "C&C")%string then ["c2"]
  else if (ty =? "distribution")%string then ["payload_delivery"]
  else if (ty =? "sinkhole")%string then ["sinkhole"]
  else [].

(** The tags that [SSLBlackListCerts.analyze] computes from
    [line["Listingreason"]]. *)
Definition ssl_tags (reason : string) : list string :=
  let tag := split_space reason in
  let tags := if (2 <=? List.length tag)%nat then [lower (hd "" tag)] else [] in
  let _type := last tag "" in
  let tags := tags ++ TYPE_DICT _type in
  tags ++ ["ssl_fingerprint"].

End Feed.

(** * Properties *)

(** ** Reading tags: [get_tags] *)

(** C10: [get_tags()] (with [fresh] defaulting to [True]) returns exactly
    the names of the entries whose [fresh] flag is set, in tag-list order;
    [get_tags(fresh=False)] returns the names of all entries.  A stored
    entry that is not fresh is therefore kept in the tag list and in the
    second reading, and filtered out of the first. *)
Theorem get_tags_filters_by_freshness (o : Observable) :
  get_tags_default o = map name (filter fresh (tags o)) /\
  get_tags o false = map name (tags o) /\
  (forall l1 t l2,
      tags o = l1 ++ t :: l2 -> fresh t = false ->
      get_tags_default o = map name (filter fresh l1) ++ map name (filter fresh l2) /\
      get_tags o false = map name l1 ++ name t :: map name l2).
Proof.
  unfold get_tags_default, get_tags.
  assert (E1 : forall l, filter (fun t => fresh t || negb true) l = filter fresh l).
  { intro l. apply filter_ext. intro t. now rewrite orb_false_r. }
  assert (E2 : forall l, filter (fun t => fresh t || negb false) l = l).
  { induction l as [|a l IH]; simpl; [reflexivity|].
    rewrite orb_true_r. now f_equal. }
  rewrite E1, E2. repeat split.
  - rewrite H, filter_app. simpl. rewrite H0. now rewrite map_app.
  - rewrite H, map_app. reflexivity.
Qed.

(** ** Guessing the class of an observable: [guess_type] *)

Section GuessType.

Variable check_type : ObservableClass -> string -> bool.

(** On a string that is not blank, [guess_type] returns the first class
    in the order Url, Ip, Email, Hostname, Hash whose [check_type]
    accepts it, and raises [ObservableValidationError] when none does. *)
Lemma guess_type_not_blank (s : string) :
  Py.strip s <> "" ->
  guess_type check_type s =
    if check_type Url s then inr (Some Url)
    else if check_type Ip s then inr (Some Ip)
    else if check_type Email s then inr (Some Email)
    else if check_type Hostname s then inr (Some Hostname)
    else if check_type Hash s then inr (Some Hash)
    else inl (ObservableValidationError
                (s ++ " was not recognized as a viable datatype")%string).
Proof.
  intro Hs. unfold guess_type, Py.str_truthy.
  assert (s <> "") as Hne by (intro; subst; now apply Hs).
  apply String.eqb_neq in Hne, Hs. rewrite Hne, Hs. simpl.
  destruct (check_type Url s); [reflexivity|].
  destruct (check_type Ip s); [reflexivity|].
  destruct (check_type Email s); [reflexivity|].
  destruct (check_type Hostname s); [reflexivity|].
  destruct (check_type Hash s); reflexivity.
Qed.

(** C9, at the failing inputs: on the empty string and on a string of
    blanks [guess_type] falls through the [if] and returns [None]; it
    raises nothing and returns no class, whatever the classes accept. *)
Theorem guess_type_blank_returns_None :
  guess_type check_type "" = inr None /\
  guess_type check_type "   " = inr None.
Proof. split; reflexivity. Qed.

End GuessType.

(** ** Context: [add_context] *)

(** C5, as amended: a context without a ['source'] key fails the [assert]
    that opens [add_context], so the call raises [AssertionError] and the
    store (tags and context entries included) is the one it started from,
    with or without [replace_source]. *)
Theorem add_context_missing_source (ctx : Context) (replace_source : option string)
    (st : Store) :
  has_key "source" ctx = false ->
  add_context ctx replace_source st = Raised AssertionError st.
Proof. intro H. unfold add_context. now rewrite H. Qed.

Lemma add_context_missing_source_witness :
  add_context [("ip", "1.2.3.4")] (Some "feed")
    (Sample.store [Sample.entry "x" 1 None true] Sample.catalog_ab)
  = Raised AssertionError
      (Sample.store [Sample.entry "x" 1 None true] Sample.catalog_ab).
Proof. apply add_context_missing_source. reflexivity. Defined.

(** C5, as stated, fails: the exception raised for a context without
    ['source'] is [AssertionError], which is not the validation error
    with the message "missing source". *)
Lemma add_context_raises_no_validation_error :
  add_context [("ip", "1.2.3.4")] None (Sample.store [] Sample.catalog_ab)
  = Raised AssertionError (Sample.store [] Sample.catalog_ab) /\
  AssertionError <> ObservableValidationError "missing source".
Proof. split; [reflexivity | discriminate]. Qed.

(** ** Expiry: [expire_tags] *)

Lemma expired_iff (now : Z) (t : ObservableTag) :
  expired now t = true <->
  exists d, expiration t = Some d /\ d <> 0 /\ last_seen t + d < now.
Proof.
  unfold expired. destruct (expiration t) as [d|].
  - rewrite andb_true_iff, negb_true_iff, Z.eqb_neq, Z.ltb_lt. split.
    + intros [H1 H2]. exists d. auto.
    + intros [d' [E [H1 H2]]]. injection E as <-. auto.
  - split; [discriminate|]. intros [d [E _]]. discriminate.
Qed.

(** C6, as amended: [expire_tags] keeps every entry in place with its
    name, dates and expiration, and an entry is not fresh afterwards
    exactly when it was not fresh before or its expiration is a non-null,
    non-zero duration with [last_seen + expiration < now].  So no entry is
    deleted, none becomes fresh again, and the rest of the store is
    untouched. *)
Theorem expire_tags_flips_exactly (now : Z) (st : Store) :
  Forall2
    (fun t t' =>
       name t' = name t /\ first_seen t' = first_seen t /\
       last_seen t' = last_seen t /\ expiration t' = expiration t /\
       (fresh t' = false <->
        fresh t = false \/
        exists d, expiration t = Some d /\ d <> 0 /\ last_seen t + d < now))
    (tags (self st)) (tags (self (expire_tags now st))) /\
  expire_tags now st =
    with_self st (set_tags (self st) (tags (self (expire_tags now st)))).
Proof.
  split; [|reflexivity].
  unfold expire_tags. simpl. induction (tags (self st)) as [|t l IH]; simpl.
  - constructor.
  - constructor; [|exact IH].
    destruct (expired now t) eqn:E.
    + simpl. repeat split; auto. intros _. right. now apply expired_iff.
    + repeat split; auto.
      intros [H|H]; [exact H|]. apply expired_iff in H. congruence.
Qed.

(** C6, as stated, fails: an entry whose expiration is the zero duration
    (not null) and whose [last_seen + expiration] lies before [now] stays
    fresh, because a zero [timedelta] is false in the guard. *)
Lemma expire_tags_keeps_zero_expiration :
  tags (self (expire_tags 100
                (Sample.store [Sample.entry "x" 1 (Some 0) true] Sample.catalog_ab)))
  = [Sample.entry "x" 1 (Some 0) true] /\
  1 + 0 < 100.
Proof. split; [reflexivity | lia]. Qed.

(** ** Recommended tags: [find_tags] *)

(** [find_tags] only reads the store. *)
Lemma find_tags_reads_only (st : Store) : store_of (find_tags st) = st.
Proof. unfold find_tags. now destruct (find_tags_count _ _ _). Qed.

(** C3, at the failing input: with tags ["a"] and ["b"] applied, both of
    which produce ["n"], the count that [find_tags] reports for ["n"] is 1:
    the count that is read back is looked up under the applied tag, not
    under the produced one. *)
Theorem find_tags_counts_one_for_two_producers :
  find_tags
    (Sample.store [Sample.entry "a" 1 None true; Sample.entry "b" 1 None true]
       Sample.catalog_n)
  = Returned [("n", 1)]
      (Sample.store [Sample.entry "a" 1 None true; Sample.entry "b" 1 None true]
         Sample.catalog_n).
Proof. reflexivity. Qed.

(** The second loop of [find_tags] removes nothing: its keys are catalog
    documents, which equal no string of [localtags]. *)
Lemma find_tags_strip_id (localtags : list string) (new_tags : list (string * Z)) :
  find_tags_strip localtags new_tags = new_tags.
Proof.
  unfold find_tags_strip.
  assert (E : forall tag, existsb (document_eq_str tag) localtags = false).
  { intro tag. induction localtags; simpl; auto. }
  generalize (map fst new_tags) as ks.
  induction ks as [|k ks IH]; simpl; [reflexivity|]. now rewrite E.
Qed.

(** ** Expiration of new entries in [tag] *)

(** C2, at the failing input: tagging with ["a"; "b"] and no expiration,
    where the catalog gives ["a"] a default of 10 and ["b"] a default of
    20, pushes the entry of ["b"] with expiration 10: the variable
    [expiration] set while ["a"] was processed is still set when ["b"]
    is. *)
Theorem tag_carries_expiration_over :
  exists o st',
    tag Sample.clean Sample.Tag_default_expiration 100 ["a"; "b"] false None
      (Sample.store [] Sample.catalog_ab) = Returned o st' /\
    tags o = [mkObservableTag "a" 100 100 (Some 10) true;
              mkObservableTag "b" 100 100 (Some 10) true] /\
    map (fun t => (tag_name t, default_expiration t)) (tag_objects st')
    = [("a", Some 10); ("b", Some 20)].
Proof. eexists. eexists. repeat split. Qed.

(** ** Facts on the tag list *)

Lemma named_iff (n : string) (t : ObservableTag) : named n t = true <-> name t = n.
Proof. apply String.eqb_eq. Qed.

Lemma named_false_iff (n : string) (t : ObservableTag) :
  named n t = false <-> name t <> n.
Proof. apply String.eqb_neq. Qed.

Lemma has_tag_iff (o : Observable) (n : string) :
  has_tag o n = true <-> In n (tag_names (tags o)).
Proof.
  unfold has_tag, tag_names. rewrite existsb_exists, in_map_iff.
  split; intros [t [H1 H2]]; exists t.
  - apply String.eqb_eq in H2. auto.
  - split; [exact H2 | now apply String.eqb_eq].
Qed.

Lemma has_tag_false_iff (o : Observable) (n : string) :
  has_tag o n = false <-> ~ In n (tag_names (tags o)).
Proof.
  rewrite <- has_tag_iff. destruct (has_tag o n); split; congruence.
Qed.

Lemma set_positional_absent n f ts :
  ~ In n (tag_names ts) -> set_positional n f ts = ts.
Proof.
  induction ts as [|t r IH]; simpl; intro H; [reflexivity|].
  destruct (named n t) eqn:E.
  - apply named_iff in E. tauto.
  - f_equal. apply IH. tauto.
Qed.

Lemma set_positional_split n f ts :
  In n (tag_names ts) ->
  exists l1 e l2,
    ts = l1 ++ e :: l2 /\ name e = n /\ ~ In n (tag_names l1) /\
    set_positional n f ts = l1 ++ f e :: l2.
Proof.
  induction ts as [|t r IH]; simpl; intro H; [contradiction|].
  destruct (named n t) eqn:E.
  - exists [], t, r. apply named_iff in E. simpl. auto.
  - apply named_false_iff in E. destruct H as [H|H]; [congruence|].
    destruct (IH H) as [l1 [e [l2 [H1 [H2 [H3 H4]]]]]].
    exists (t :: l1), e, l2. simpl. rewrite H1 at 1. rewrite H4.
    repeat split; auto. intros [H5|H5]; auto.
Qed.

Lemma set_positional_names n f ts :
  (forall t, name (f t) = name t) ->
  tag_names (set_positional n f ts) = tag_names ts.
Proof.
  intro Hf. induction ts as [|t r IH]; simpl; [reflexivity|].
  destruct (named n t); simpl; [now rewrite Hf | now rewrite IH].
Qed.

Lemma pull_name_names n ts :
  tag_names (pull_name n ts) =
  filter (fun m => negb (m =? n)%string) (tag_names ts).
Proof.
  unfold pull_name, named. induction ts as [|t r IH]; simpl; [reflexivity|].
  destruct (name t =? n)%string; simpl; now rewrite IH.
Qed.

Lemma pull_name_In n m ts :
  In m (tag_names (pull_name n ts)) <-> In m (tag_names ts) /\ m <> n.
Proof.
  rewrite pull_name_names, filter_In, negb_true_iff, String.eqb_neq. tauto.
Qed.

Lemma pull_name_NoDup n ts :
  NoDup (tag_names ts) -> NoDup (tag_names (pull_name n ts)).
Proof. rewrite pull_name_names. apply NoDup_filter. Qed.

Lemma tag_names_app l1 l2 : tag_names (l1 ++ l2) = tag_names l1 ++ tag_names l2.
Proof. apply map_app. Qed.

(** ** Renaming: [change_tag] *)

(** C7, as amended: on an observable whose tag list holds at most one
    entry per name, and for two distinct names, [change_tag] leaves no entry named
    [old_tag], so the observable never holds both names afterwards.  When
    [old_tag] was there without [new_tag], its entry is renamed in place
    and keeps its dates, expiration and freshness; when both were there,
    the entry of [old_tag] is deleted and [last_seen] of the entry of
    [new_tag] is set to [now]. *)
Theorem change_tag_never_both (now : Z) (old_tag new_tag : string) (st : Store) :
  old_tag <> new_tag ->
  NoDup (tag_names (tags (self st))) ->
  exists o',
    change_tag now old_tag new_tag st = Returned o' (with_self st o') /\
    o' = set_tags (self st) (tags o') /\
    has_tag o' old_tag = false /\
    has_tag o' old_tag && has_tag o' new_tag = false /\
    (has_tag (self st) old_tag = true -> has_tag (self st) new_tag = false ->
     exists l1 e l2,
       tags (self st) = l1 ++ e :: l2 /\ name e = old_tag /\
       tags o' =
         l1 ++ mkObservableTag new_tag (first_seen e) (last_seen e)
                 (expiration e) (fresh e) :: l2) /\
    (has_tag (self st) old_tag = true -> has_tag (self st) new_tag = true ->
     exists l1 e l2,
       pull_name old_tag (tags (self st)) = l1 ++ e :: l2 /\ name e = new_tag /\
       tags o' =
         l1 ++ mkObservableTag new_tag (first_seen e) now
                 (expiration e) (fresh e) :: l2).
Proof.
  intros Hne Hnd. unfold change_tag, modify.
  destruct (has_tag (self st) old_tag) eqn:Hold;
    destruct (has_tag (self st) new_tag) eqn:Hnew; simpl.
  - (* both present: delete the old entry, touch the new one *)
    rewrite Hold. simpl.
    assert (Hin : In new_tag (tag_names (pull_name old_tag (tags (self st))))).
    { apply pull_name_In. apply has_tag_iff in Hnew. auto. }
    assert (Hq : has_tag (set_tags (self st) (pull_name old_tag (tags (self st))))
                   new_tag = true) by now apply has_tag_iff.
    rewrite Hq. simpl.
    exists (set_tags (self st)
              (set_positional new_tag (touch_entry now)
                 (pull_name old_tag (tags (self st))))).
    split; [reflexivity|]. split; [reflexivity|].
    assert (Hgone : has_tag
              (set_tags (self st)
                 (set_positional new_tag (touch_entry now)
                    (pull_name old_tag (tags (self st))))) old_tag = false).
    { apply has_tag_false_iff. simpl.
      rewrite set_positional_names by reflexivity.
      rewrite pull_name_In. tauto. }
    rewrite Hgone. repeat split; try discriminate.
    intros _ _.
    destruct (set_positional_split new_tag (touch_entry now) _ Hin)
      as [l1 [e [l2 [H1 [H2 [_ H4]]]]]].
    exists l1, e, l2. simpl. rewrite H4. unfold touch_entry. rewrite H2. auto.
  - (* only the old name: rename in place *)
    apply has_tag_iff in Hold. apply has_tag_false_iff in Hnew.
    destruct (set_positional_split old_tag (rename_entry new_tag) _ Hold)
      as [l1 [e [l2 [H1 [H2 [H3 H4]]]]]].
    exists (set_tags (self st)
              (set_positional old_tag (rename_entry new_tag) (tags (self st)))).
    split; [reflexivity|]. split; [reflexivity|].
    assert (Hgone : has_tag
              (set_tags (self st)
                 (set_positional old_tag (rename_entry new_tag) (tags (self st))))
              old_tag = false).
    { apply has_tag_false_iff. simpl. rewrite H4.
      rewrite H1, tag_names_app in Hnd. simpl in Hnd. rewrite H2 in Hnd.
      apply NoDup_remove_2 in Hnd.
      rewrite tag_names_app. simpl. intro Hin.
      apply in_app_or in Hin. destruct Hin as [Hin|[Hin|Hin]].
      - apply Hnd, in_or_app. auto.
      - congruence.
      - apply Hnd, in_or_app. auto. }
    rewrite Hgone. repeat split; try discriminate.
    intros _ _. exists l1, e, l2. simpl. rewrite H4. auto.
  - (* the old name is absent, the new one present *)
    rewrite Hold. simpl. rewrite Hnew. simpl.
    exists (set_tags (self st)
              (set_positional new_tag (touch_entry now) (tags (self st)))).
    split; [reflexivity|]. split; [reflexivity|].
    assert (Hgone : has_tag
              (set_tags (self st)
                 (set_positional new_tag (touch_entry now) (tags (self st))))
              old_tag = false).
    { apply has_tag_false_iff. simpl.
      rewrite set_positional_names by reflexivity.
      now apply has_tag_false_iff. }
    rewrite Hgone. repeat split; discriminate.
  - (* neither name is present *)
    rewrite Hold. simpl. rewrite Hnew. simpl.
    exists (self st). destruct st as [o c e l]; destruct o; simpl in *.
    rewrite Hold. repeat split; discriminate.
Qed.

Lemma change_tag_never_both_witness :
  exists o',
    change_tag 100 "old" "new" Sample.store_old_new
    = Returned o' (with_self Sample.store_old_new o') /\
    has_tag o' "old" = false /\
    has_tag o' "old" && has_tag o' "new" = false.
Proof.
  assert (H1 : "old" <> "new") by discriminate.
  assert (H2 : NoDup (tag_names (tags (self Sample.store_old_new)))).
  { simpl. constructor; [|constructor; [|constructor]]; simpl.
    - intros [H|H]; [discriminate H | exact H].
    - intro H; exact H. }
  destruct (change_tag_never_both 100 "old" "new" Sample.store_old_new H1 H2)
    as [o' [E [_ [G1 [G2 _]]]]].
  exists o'. auto.
Defined.

(** C7, as stated, fails: on an observable that holds two entries named
    ["old"], the positional update renames the first one only, and the
    observable holds both ["new"] and ["old"] after the call. *)
Lemma change_tag_duplicate_leaves_both :
  exists o',
    change_tag 100 "old" "new" Sample.store_old_old
    = Returned o' (with_self Sample.store_old_old o') /\
    tags o' = [mkObservableTag "new" 1 1 None true;
               mkObservableTag "old" 2 2 None true] /\
    has_tag o' "old" = true /\ has_tag o' "new" = true.
Proof.
  eexists. split; [reflexivity|]. split; [reflexivity|]. split; reflexivity.
Qed.

(** ** The strict step of [tag] *)

Lemma fold_pull_tags (names : list string) (st : Store) :
  fold_left
    (fun s n =>
       snd (modify (fun _ => true)
                   (fun o => set_tags o (pull_name n (tags o))) s))
    names st
  = with_self st
      (set_tags (self st)
         (filter (fun t => negb (Py.mem (name t) names)) (tags (self st)))).
Proof.
  revert st. induction names as [|n names IH]; intro st; simpl.
  - destruct st as [o c e l]; destruct o as [v ss cs ts lt].
    unfold with_self, set_tags. simpl.
    replace (filter (fun _ : ObservableTag => true) ts) with ts; [reflexivity|].
    clear. induction ts as [|t r IHr]; simpl; [reflexivity | now f_equal].
  - rewrite IH. unfold modify, with_self, set_tags. simpl. f_equal. f_equal.
    unfold pull_name, named. clear.
    induction (tags (self st)) as [|t r IHr]; simpl; [reflexivity|].
    rewrite (String.eqb_sym (name t) n).
    destruct (n =? name t)%string; simpl; rewrite IHr; reflexivity.
Qed.

Lemma mem_iff (x : string) (l : list string) : Py.mem x l = true <-> In x l.
Proof.
  unfold Py.mem. rewrite existsb_exists. split.
  - intros [y [H1 H2]]. apply String.eqb_eq in H2. now subst.
  - intro H. exists x. split; [exact H | apply String.eqb_refl].
Qed.

(** What the strict step does: it removes exactly the entries whose name
    is not, as a string, one of the raw names passed in; nothing is
    normalised before the comparison.  A strict call is then the plain
    call on the store so reduced. *)
Lemma tag_strict_removes_by_raw_name
    (clean : string -> string) (Tag_default_expiration : option Z)
    (now : Z) (new_tags : list string) (expiration : option Z) (st : Store) :
  remove_other_tags new_tags st =
    with_self st
      (set_tags (self st)
         (filter (fun t => Py.mem (name t) new_tags) (tags (self st)))) /\
  tag clean Tag_default_expiration now new_tags true expiration st =
    tag clean Tag_default_expiration now new_tags false expiration
      (remove_other_tags new_tags st).
Proof.
  split; [|reflexivity].
  unfold remove_other_tags. rewrite fold_pull_tags. f_equal. f_equal.
  apply filter_ext_in. intros t Ht.
  destruct (Py.mem (name t) new_tags) eqn:E.
  - apply negb_true_iff.
    destruct (Py.mem (name t) (Py.set_difference _ new_tags)) eqn:F; [|reflexivity].
    apply mem_iff in F. unfold Py.set_difference in F.
    apply nodup_In, filter_In in F. destruct F as [_ F].
    rewrite E in F. discriminate.
  - apply negb_false_iff, mem_iff. unfold Py.set_difference.
    apply nodup_In, filter_In. split; [now apply in_map | now rewrite E].
Qed.

(** The strict retag of the spec: with ["x"] and ["y"] applied, a strict
    call with ["y"] removes ["x"] and refreshes ["y"]. *)
Example tag_strict_x_y :
  exists o st',
    tag Sample.clean Sample.Tag_default_expiration 100 ["y"] true None
      (Sample.store [Sample.entry "x" 1 None true; Sample.entry "y" 2 None false]
         Sample.catalog_ab)
    = Returned o st' /\
    tags o = [mkObservableTag "y" 2 100 None true].
Proof. eexists. eexists. split; reflexivity. Qed.

(** C4, at the failing inputs: the observable holds the tag ["b"] since
    time 1.  The raw name ["legacy"] resolves to ["b"] (an alias), and the
    raw name [" b "] normalises to ["b"]; in both strict calls the strict
    step nevertheless removes the entry of ["b"], and the loop then pushes
    a new entry for ["b"], first seen at the time of the call, and counts
    one more use of the tag. *)
Theorem tag_strict_removes_normalised_name :
  (tags (self Sample.store_b_alias) = [mkObservableTag "b" 1 1 None true] /\
   tags (self (remove_other_tags ["legacy"] Sample.store_b_alias)) = [] /\
   exists o st',
     tag Sample.clean Sample.Tag_default_expiration 100 ["legacy"] true None
       Sample.store_b_alias = Returned o st' /\
     tags o = [mkObservableTag "b" 100 100 None true] /\
     map (fun t => (tag_name t, count t)) (tag_objects st') = [("b", 4)]) /\
  (Sample.clean " b " = "b" /\
   tags (self Sample.store_b) = [mkObservableTag "b" 1 1 (Some 20) true] /\
   tags (self (remove_other_tags [" b "] Sample.store_b)) = [] /\
   exists o st',
     tag Sample.clean Sample.Tag_default_expiration 100 [" b "] true None
       Sample.store_b = Returned o st' /\
     tags o = [mkObservableTag "b" 100 100 (Some 20) true] /\
     map (fun t => (tag_name t, count t)) (tag_objects st')
     = [("a", 0); ("b", 1)]).
Proof.
  split.
  - split; [reflexivity|]. split; [reflexivity|].
    eexists. eexists. split; [reflexivity|]. split; reflexivity.
  - split; [reflexivity|]. split; [reflexivity|]. split; [reflexivity|].
    eexists. eexists. split; [reflexivity|]. split; reflexivity.
Qed.

(** ** Applying one tag: [apply_tag] *)

Lemma apply_tag_present now e n st :
  has_tag (self st) n = true ->
  apply_tag now e n st =
    with_self st
      (set_tags (self st) (set_positional n (refresh_entry now) (tags (self st)))).
Proof. intro H. unfold apply_tag, modify. now rewrite H. Qed.

Lemma apply_tag_absent now e n st :
  has_tag (self st) n = false ->
  apply_tag now e n st =
    mkStore (set_tags (self st) (tags (self st) ++ [new_ObservableTag now n e]))
      (inc_count n (tag_objects st)) (entity_objects st) (links st).
Proof. intro H. unfold apply_tag, modify. now rewrite H. Qed.

(** The names held after [apply_tag]: the refresh path keeps the list of
    names, the insert path appends the name. *)
Lemma apply_tag_names now e n st :
  tag_names (tags (self (apply_tag now e n st))) =
  tag_names (tags (self st)) ++ (if has_tag (self st) n then [] else [n]).
Proof.
  destruct (has_tag (self st) n) eqn:H.
  - rewrite apply_tag_present by exact H. simpl.
    rewrite set_positional_names by reflexivity. now rewrite app_nil_r.
  - rewrite apply_tag_absent by exact H. simpl. now rewrite tag_names_app.
Qed.

Lemma apply_tag_In now e n m st :
  In m (tag_names (tags (self (apply_tag now e n st)))) <->
  In m (tag_names (tags (self st))) \/ m = n.
Proof.
  rewrite apply_tag_names, in_app_iff.
  destruct (has_tag (self st) n) eqn:H; simpl.
  - apply has_tag_iff in H. split; [tauto|].
    intros [H1|H1]; [auto | subst; auto].
  - split; [intros [H1|[H1|[]]]; auto | intros [H1|H1]; auto].
Qed.

Lemma apply_tag_NoDup now e n st :
  NoDup (tag_names (tags (self st))) ->
  NoDup (tag_names (tags (self (apply_tag now e n st)))).
Proof.
  intro Hnd. rewrite apply_tag_names.
  destruct (has_tag (self st) n) eqn:H.
  - now rewrite app_nil_r.
  - apply has_tag_false_iff in H.
    apply NoDup_rev in Hnd. rewrite <- (rev_involutive (_ ++ [n])).
    apply NoDup_rev. rewrite rev_app_distr. simpl.
    constructor; [|exact Hnd]. now rewrite <- in_rev.
Qed.

Lemma filter_named_absent n ts :
  ~ In n (tag_names ts) -> filter (named n) ts = [].
Proof.
  induction ts as [|t r IH]; simpl; intro H; [reflexivity|].
  destruct (named n t) eqn:E.
  - apply named_iff in E. tauto.
  - apply IH. tauto.
Qed.

Lemma filter_named_set_positional_other n m f ts :
  (forall t, name (f t) = name t) -> m <> n ->
  filter (named m) (set_positional n f ts) = filter (named m) ts.
Proof.
  intros Hf Hne. induction ts as [|t r IH]; simpl; [reflexivity|].
  destruct (named n t) eqn:E; simpl.
  - apply named_iff in E.
    assert (F1 : named m t = false) by (apply named_false_iff; congruence).
    assert (F2 : named m (f t) = false).
    { apply named_false_iff. rewrite Hf. congruence. }
    now rewrite F1, F2.
  - rewrite IH. reflexivity.
Qed.

(** The entries of another name are left as they are. *)
Lemma apply_tag_other now e n m st :
  m <> n ->
  filter (named m) (tags (self (apply_tag now e n st))) =
  filter (named m) (tags (self st)).
Proof.
  intro Hne. destruct (has_tag (self st) n) eqn:H.
  - rewrite apply_tag_present by exact H. simpl.
    now apply filter_named_set_positional_other.
  - rewrite apply_tag_absent by exact H. simpl. rewrite filter_app. simpl.
    assert (F : named m (new_ObservableTag now n e) = false).
    { apply named_false_iff. simpl. congruence. }
    rewrite F. apply app_nil_r.
Qed.

(** On a tag list without duplicate names, the one entry of the applied
    name is fresh and last seen [now] after [apply_tag]. *)
Lemma apply_tag_entry now e n st :
  NoDup (tag_names (tags (self st))) ->
  exists t,
    filter (named n) (tags (self (apply_tag now e n st))) = [t] /\
    name t = n /\ last_seen t = now /\ fresh t = true.
Proof.
  intro Hnd. destruct (has_tag (self st) n) eqn:H.
  - rewrite apply_tag_present by exact H. simpl.
    apply has_tag_iff in H.
    destruct (set_positional_split n (refresh_entry now) _ H)
      as [l1 [t [l2 [H1 [H2 [H3 H4]]]]]].
    rewrite H4. exists (refresh_entry now t).
    rewrite H1, tag_names_app in Hnd. simpl in Hnd. rewrite H2 in Hnd.
    apply NoDup_remove_2 in Hnd.
    assert (F : named n (refresh_entry now t) = true) by now apply named_iff.
    rewrite filter_app. simpl. rewrite F.
    rewrite !filter_named_absent; auto.
    intro Hin. apply Hnd, in_or_app. auto.
  - rewrite apply_tag_absent by exact H. simpl.
    apply has_tag_false_iff in H.
    exists (new_ObservableTag now n e).
    assert (F : named n (new_ObservableTag now n e) = true) by now apply named_iff.
    rewrite filter_app, filter_named_absent by exact H. simpl.
    now rewrite F.
Qed.

(** [apply_tag] changes the catalog in the use counts only. *)
Lemma inc_count_shape n c :
  map (fun t => (tag_name t, produces t, replaces t, default_expiration t))
    (inc_count n c) =
  map (fun t => (tag_name t, produces t, replaces t, default_expiration t)) c.
Proof.
  induction c as [|t r IH]; simpl; [reflexivity|].
  destruct (tag_name t =? n)%string; simpl; [reflexivity | now rewrite IH].
Qed.

Lemma apply_tag_shape now e n st :
  map (fun t => (tag_name t, produces t, replaces t, default_expiration t))
    (tag_objects (apply_tag now e n st)) =
  map (fun t => (tag_name t, produces t, replaces t, default_expiration t))
    (tag_objects st).
Proof.
  destruct (has_tag (self st) n) eqn:H.
  - now rewrite apply_tag_present.
  - rewrite apply_tag_absent by exact H. simpl. apply inc_count_shape.
Qed.

(** ** The loop over the application set *)

Lemma fold_apply_tag_NoDup now e L st :
  NoDup (tag_names (tags (self st))) ->
  NoDup (tag_names (tags (self (fold_left (fun s t => apply_tag now e t s) L st)))).
Proof.
  revert st. induction L as [|n L IH]; intros st H; simpl; [exact H|].
  apply IH. now apply apply_tag_NoDup.
Qed.

Lemma fold_apply_tag_In now e L m st :
  In m (tag_names (tags (self (fold_left (fun s t => apply_tag now e t s) L st)))) <->
  In m (tag_names (tags (self st))) \/ In m L.
Proof.
  revert st. induction L as [|n L IH]; intro st; simpl; [tauto|].
  rewrite IH, apply_tag_In. intuition auto.
Qed.

Lemma fold_apply_tag_other now e L m st :
  ~ In m L ->
  filter (named m) (tags (self (fold_left (fun s t => apply_tag now e t s) L st))) =
  filter (named m) (tags (self st)).
Proof.
  revert st. induction L as [|n L IH]; intros st H; simpl; [reflexivity|].
  simpl in H. rewrite IH by tauto. apply apply_tag_other. intro; subst; tauto.
Qed.

(** When every name of the application set is already held, the loop
    takes the refresh path throughout: no entry is appended. *)
Lemma fold_apply_tag_refresh_only now e L st :
  (forall m, In m L -> In m (tag_names (tags (self st)))) ->
  tag_names (tags (self (fold_left (fun s t => apply_tag now e t s) L st))) =
  tag_names (tags (self st)).
Proof.
  revert st. induction L as [|n L IH]; intros st H; simpl; [reflexivity|].
  assert (Hn : has_tag (self st) n = true) by (apply has_tag_iff, H; now left).
  assert (E : tag_names (tags (self (apply_tag now e n st))) =
              tag_names (tags (self st))).
  { rewrite apply_tag_names, Hn. apply app_nil_r. }
  rewrite IH; [exact E|]. intros m Hm. rewrite E. apply H. now right.
Qed.

Lemma fold_apply_tag_shape now e L st :
  map (fun t => (tag_name t, produces t, replaces t, default_expiration t))
    (tag_objects (fold_left (fun s t => apply_tag now e t s) L st)) =
  map (fun t => (tag_name t, produces t, replaces t, default_expiration t))
    (tag_objects st).
Proof.
  revert st. induction L as [|n L IH]; intro st; simpl; [reflexivity|].
  rewrite IH. apply apply_tag_shape.
Qed.

(** The last tag applied is the canonical one: its entry ends up fresh and
    last seen [now]. *)
Lemma fold_apply_tag_last now e L c st :
  NoDup (tag_names (tags (self st))) ->
  exists t,
    filter (named c)
      (tags (self (fold_left (fun s t => apply_tag now e t s) (L ++ [c]) st))) = [t] /\
    name t = c /\ last_seen t = now /\ fresh t = true.
Proof.
  intro H. rewrite fold_left_app. simpl.
  apply apply_tag_entry. now apply fold_apply_tag_NoDup.
Qed.

(** Linking the entities leaves the observable and the catalog alone. *)
Lemma fold_link_frame now es st :
  self (fold_left (fun s e => active_link_to now e "Tagged" "tags" s) es st) = self st /\
  tag_objects (fold_left (fun s e => active_link_to now e "Tagged" "tags" s) es st)
  = tag_objects st.
Proof.
  revert st. induction es as [|e es IH]; intro st; simpl; [auto|].
  destruct (IH (active_link_to now e "Tagged" "tags" st)) as [H1 H2].
  rewrite H1, H2. auto.
Qed.

Lemma filter_nil_iff {A : Type} (p : A -> bool) (l : list A) :
  filter p l = [] <-> forall x, In x l -> p x = false.
Proof.
  induction l as [|a l IH]; simpl.
  - split; [intros _ x [] | reflexivity].
  - destruct (p a) eqn:E; split.
    + discriminate.
    + intro H. specialize (H a (or_introl eq_refl)). congruence.
    + intros H x [Hx|Hx]; [now subst | now apply IH].
    + intro H. apply IH. intros x Hx. apply H. now right.
Qed.

(** ** Resolving a name in the catalog *)

Section Tagging.

Variable clean : string -> string.
Variable Tag_default_expiration : option Z.

Lemma resolve_tag_self n st t st1 :
  resolve_tag Tag_default_expiration n st = Returned t st1 ->
  self st1 = self st.
Proof.
  unfold resolve_tag, Tag_get_or_create.
  destruct (filter _ (tag_objects st)) as [|t1 [|t2 l]].
  - destruct (find _ (tag_objects st)); intro H; injection H as _ <-; reflexivity.
  - intro H. now injection H as _ <-.
  - discriminate.
Qed.

(** A name that is no alias and names a catalog tag resolves to that tag
    and leaves the catalog as it is. *)
Lemma resolve_tag_found n st t :
  (forall t', In t' (tag_objects st) -> ~ In n (replaces t')) ->
  find (fun t' => (tag_name t' =? n)%string) (tag_objects st) = Some t ->
  resolve_tag Tag_default_expiration n st = Returned t st.
Proof.
  intros Ha Hf. unfold resolve_tag, Tag_get_or_create.
  assert (E : filter (fun t' => Py.mem n (replaces t')) (tag_objects st) = []).
  { apply filter_nil_iff. intros x Hx.
    destruct (Py.mem n (replaces x)) eqn:F; [|reflexivity].
    apply mem_iff in F. now apply Ha in Hx. }
  now rewrite E, Hf.
Qed.

(** One non-blank name: the call resolves the name, links the entities,
    applies [produces] and then the tag itself, and stamps
    [last_tagged]. *)
Lemma tag_single now x e st t st1 :
  Py.strip x <> "" ->
  resolve_tag Tag_default_expiration (clean x) st = Returned t st1 ->
  exists s,
    s = fold_left
          (fun s n =>
             apply_tag now
               (if negb (Py.td_truthy e) then default_expiration t else e) n s)
          (produces t ++ [tag_name t])
          (fold_left (fun s en => active_link_to now en "Tagged" "tags" s)
             (entities_tagged (tag_name t) st1) st1) /\
    tag clean Tag_default_expiration now [x] false e st =
      Returned (set_last_tagged (self s) (Some now))
        (with_self s (set_last_tagged (self s) (Some now))).
Proof.
  intros Hx Hr. eexists. split; [reflexivity|].
  unfold tag. simpl. apply String.eqb_neq in Hx. rewrite Hx. simpl.
  rewrite Hr. reflexivity.
Qed.

Lemma has_tag_fold_apply_tag now e L m st :
  has_tag (self (fold_left (fun s t => apply_tag now e t s) L st)) m =
  has_tag (self st) m || Py.mem m L.
Proof.
  apply eq_true_iff_eq.
  rewrite orb_true_iff, !has_tag_iff, mem_iff. apply fold_apply_tag_In.
Qed.

(** ** Derived tags: one level of [produces] *)

(** C8: tagging with a name [a] that is no alias and names the catalog
    tag [ta], where [ta] produces exactly [b], returns with entries for
    [ta] and for [b]; the names held afterwards are the names held
    before followed by those of [b] and [ta] that were missing, and the
    entries of any other name [c] (the tags that [b] produces among
    them) are exactly those held before, so no entry is created for [c].
    Nothing is asked of the catalog beyond this: the derivation graph
    may be cyclic, and the call still returns. *)
Theorem tag_expands_one_level now a ta b e st :
  Py.strip a <> "" ->
  (forall t, In t (tag_objects st) -> ~ In (clean a) (replaces t)) ->
  find (fun t => (tag_name t =? clean a)%string) (tag_objects st) = Some ta ->
  produces ta = [b] ->
  b <> clean a ->
  exists o' st',
    tag clean Tag_default_expiration now [a] false e st = Returned o' st' /\
    has_tag o' (clean a) = true /\
    has_tag o' b = true /\
    tag_names (tags o') =
      tag_names (tags (self st)) ++
      filter (fun n => negb (has_tag (self st) n)) [b; clean a] /\
    (forall c, c <> clean a -> c <> b ->
       filter (named c) (tags o') = filter (named c) (tags (self st)) /\
       has_tag o' c = has_tag (self st) c).
Proof.
  intros Hx Halias Hfind Hprod Hne.
  assert (Hname : tag_name ta = clean a).
  { apply find_some in Hfind. now apply String.eqb_eq. }
  pose proof (resolve_tag_found (clean a) st ta Halias Hfind) as Hr.
  destruct (tag_single now a e st ta st Hx Hr) as [s [Hs Ht]].
  rewrite Hprod, Hname in Hs. simpl app in Hs.
  destruct (fold_link_frame now (entities_tagged (clean a) st) st) as [Hself _].
  eexists. eexists. split; [exact Ht|]. simpl tags.
  assert (Hhas : forall m,
             has_tag (set_last_tagged (self s) (Some now)) m =
             has_tag (self st) m || Py.mem m [b; clean a]).
  { intro m. change (has_tag (set_last_tagged (self s) (Some now)) m)
      with (has_tag (self s) m).
    rewrite Hs, has_tag_fold_apply_tag, Hself. reflexivity. }
  split; [|split; [|split]].
  - rewrite Hhas. simpl. rewrite String.eqb_refl. now rewrite !orb_true_r.
  - rewrite Hhas. simpl. rewrite String.eqb_refl. now rewrite !orb_true_r.
  - rewrite Hs. simpl fold_left. rewrite !apply_tag_names.
    assert (Hb : forall e' s0,
               has_tag (self (apply_tag now e' b s0)) (clean a) =
               has_tag (self s0) (clean a) || Py.mem (clean a) [b]).
    { intros e' s0. apply (has_tag_fold_apply_tag now e' [b]). }
    rewrite Hb, Hself. simpl.
    assert (E : (clean a =? b)%string = false).
    { apply String.eqb_neq. congruence. }
    rewrite E, !orb_false_r. rewrite <- app_assoc. f_equal.
    destruct (has_tag (self st) b), (has_tag (self st) (clean a)); reflexivity.
  - intros c Hc1 Hc2. split.
    + rewrite Hs, fold_apply_tag_other, Hself; [reflexivity|].
      simpl. intros [H|[H|[]]]; congruence.
    + rewrite Hhas. simpl.
      assert (E1 : (c =? b)%string = false) by now apply String.eqb_neq.
      assert (E2 : (c =? clean a)%string = false) by now apply String.eqb_neq.
      now rewrite E1, E2, !orb_false_r.
Qed.

(** ** Tagging twice *)

Lemma find_app_None {A : Type} (p : A -> bool) (l l' : list A) :
  find p l = None -> find p (l ++ l') = find p l'.
Proof.
  induction l as [|a l IH]; simpl; [reflexivity|].
  destruct (p a); [discriminate | exact IH].
Qed.

(** What [resolve_tag] leaves behind: the name resolves to the same tag,
    with no creation, in the catalog it returns. *)
Lemma resolve_tag_settled n st t st1 :
  resolve_tag Tag_default_expiration n st = Returned t st1 ->
  filter (fun t' => Py.mem n (replaces t')) (tag_objects st1) = [t] \/
  (filter (fun t' => Py.mem n (replaces t')) (tag_objects st1) = [] /\
   find (fun t' => (tag_name t' =? n)%string) (tag_objects st1) = Some t).
Proof.
  unfold resolve_tag, Tag_get_or_create.
  destruct (filter _ (tag_objects st)) as [|t1 [|t2 l]] eqn:Ef.
  - destruct (find _ (tag_objects st)) as [t0|] eqn:Eg; intro H;
      injection H as <- <-.
    + right. auto.
    + right. simpl. rewrite filter_app, Ef. simpl.
      rewrite find_app_None by exact Eg. simpl.
      rewrite String.eqb_refl. auto.
  - intro H. injection H as <- <-. left. exact Ef.
  - discriminate.
Qed.

(** Two catalogs that differ in the use counts only resolve a name
    alike. *)
Lemma filter_replaces_shape n c c' :
  map (fun t => (tag_name t, produces t, replaces t, default_expiration t)) c =
  map (fun t => (tag_name t, produces t, replaces t, default_expiration t)) c' ->
  map (fun t => (tag_name t, produces t, replaces t, default_expiration t))
    (filter (fun t' => Py.mem n (replaces t')) c) =
  map (fun t => (tag_name t, produces t, replaces t, default_expiration t))
    (filter (fun t' => Py.mem n (replaces t')) c').
Proof.
  revert c'. induction c as [|t r IH]; intros [|t' r'] H; simpl in *;
    try discriminate; [reflexivity|].
  injection H as H1 H2 H3 H4 H5. rewrite H3.
  destruct (Py.mem n (replaces t')); simpl; rewrite (IH r' H5); congruence.
Qed.

Lemma find_name_shape n c c' :
  map (fun t => (tag_name t, produces t, replaces t, default_expiration t)) c =
  map (fun t => (tag_name t, produces t, replaces t, default_expiration t)) c' ->
  option_map (fun t => (tag_name t, produces t, replaces t, default_expiration t))
    (find (fun t' => (tag_name t' =? n)%string) c) =
  option_map (fun t => (tag_name t, produces t, replaces t, default_expiration t))
    (find (fun t' => (tag_name t' =? n)%string) c').
Proof.
  revert c'. induction c as [|t r IH]; intros [|t' r'] H; simpl in *;
    try discriminate; [reflexivity|].
  injection H as H1 H2 H3 H4 H5. rewrite H1.
  destruct (tag_name t' =? n)%string; simpl; [congruence | exact (IH r' H5)].
Qed.

Lemma resolve_tag_again n st t st1 st2 :
  resolve_tag Tag_default_expiration n st = Returned t st1 ->
  map (fun t => (tag_name t, produces t, replaces t, default_expiration t))
    (tag_objects st2) =
  map (fun t => (tag_name t, produces t, replaces t, default_expiration t))
    (tag_objects st1) ->
  exists t2,
    resolve_tag Tag_default_expiration n st2 = Returned t2 st2 /\
    tag_name t2 = tag_name t /\ produces t2 = produces t.
Proof.
  intros Hr Hsh. apply resolve_tag_settled in Hr.
  pose proof (filter_replaces_shape n _ _ Hsh) as Hf.
  pose proof (find_name_shape n _ _ Hsh) as Hg.
  unfold resolve_tag, Tag_get_or_create.
  destruct Hr as [Hr | [Hr1 Hr2]].
  - rewrite Hr in Hf.
    destruct (filter _ (tag_objects st2)) as [|t2 [|t3 l]];
      simpl in Hf; try discriminate.
    injection Hf as H1 H2 H3 H4. exists t2. auto.
  - rewrite Hr1 in Hf. rewrite Hr2 in Hg.
    destruct (filter _ (tag_objects st2)) as [|t2 l];
      simpl in Hf; try discriminate.
    destruct (find _ (tag_objects st2)) as [t2|]; simpl in Hg;
      try discriminate.
    injection Hg as H1 H2 H3 H4. exists t2. auto.
Qed.

(** C1, as amended: on an observable whose tag list holds at most one
    entry per name, and for a non-blank name [x] that the catalog
    resolves to the tag [t] (the tag that lists the cleaned name in
    [replaces], or else the tag of that name, created if need be),
    tagging with [[x]] twice returns both times and leaves exactly one
    entry named [tag_name t], fresh and last seen at the time of the
    second call.  The second call appends nothing (it takes the refresh
    path for every tag of the application set), and the names stay
    without duplicates. *)
Theorem tag_twice_refreshes now1 now2 x e1 e2 st t st1 :
  Py.strip x <> "" ->
  NoDup (tag_names (tags (self st))) ->
  resolve_tag Tag_default_expiration (clean x) st = Returned t st1 ->
  exists o1 s1 o2 s2 entry,
    tag clean Tag_default_expiration now1 [x] false e1 st = Returned o1 s1 /\
    tag clean Tag_default_expiration now2 [x] false e2 s1 = Returned o2 s2 /\
    filter (named (tag_name t)) (tags o2) = [entry] /\
    last_seen entry = now2 /\ fresh entry = true /\
    tag_names (tags o2) = tag_names (tags o1) /\
    NoDup (tag_names (tags o2)).
Proof.
  intros Hx Hnd Hr.
  destruct (tag_single now1 x e1 st t st1 Hx Hr) as [s [Hs Ht1]].
  destruct (fold_link_frame now1 (entities_tagged (tag_name t) st1) st1)
    as [Hself1 Hcat1].
  pose proof (resolve_tag_self _ _ _ _ Hr) as Hself0.
  set (o1 := set_last_tagged (self s) (Some now1)) in *.
  set (s1 := with_self s o1) in *.
  (* the first call: no duplicates, and the application set is held *)
  assert (Hnd1 : NoDup (tag_names (tags o1))).
  { change (tags o1) with (tags (self s)). rewrite Hs.
    apply fold_apply_tag_NoDup. now rewrite Hself1, Hself0. }
  assert (Hheld : forall m, In m (produces t ++ [tag_name t]) ->
                            In m (tag_names (tags o1))).
  { intros m Hm. change (tags o1) with (tags (self s)). rewrite Hs.
    apply fold_apply_tag_In. now right. }
  (* the catalog resolves the name as before *)
  assert (Hsh : map (fun t => (tag_name t, produces t, replaces t,
                               default_expiration t)) (tag_objects s1) =
                map (fun t => (tag_name t, produces t, replaces t,
                               default_expiration t)) (tag_objects st1)).
  { change (tag_objects s1) with (tag_objects s). rewrite Hs.
    now rewrite fold_apply_tag_shape, Hcat1. }
  destruct (resolve_tag_again _ _ _ _ s1 Hr Hsh) as [t2 [Hr2 [Hn2 Hp2]]].
  destruct (tag_single now2 x e2 s1 t2 s1 Hx Hr2) as [s' [Hs' Ht2]].
  rewrite Hn2, Hp2 in Hs'.
  destruct (fold_link_frame now2 (entities_tagged (tag_name t) s1) s1)
    as [Hself2 _].
  assert (Hbase : tags (self (fold_left
                    (fun s en => active_link_to now2 en "Tagged" "tags" s)
                    (entities_tagged (tag_name t) s1) s1)) = tags o1).
  { now rewrite Hself2. }
  destruct (fold_apply_tag_last now2
              (if negb (Py.td_truthy e2) then default_expiration t2 else e2)
              (produces t) (tag_name t)
              (fold_left (fun s en => active_link_to now2 en "Tagged" "tags" s)
                 (entities_tagged (tag_name t) s1) s1))
    as [entry [He1 [_ [He2 He3]]]].
  { now rewrite Hbase. }
  rewrite <- Hs' in He1.
  exists o1, s1, (set_last_tagged (self s') (Some now2)),
    (with_self s' (set_last_tagged (self s') (Some now2))), entry.
  split; [exact Ht1|]. split; [exact Ht2|].
  change (tags (set_last_tagged (self s') (Some now2))) with (tags (self s')).
  split; [exact He1|]. split; [exact He2|]. split; [exact He3|].
  split.
  - rewrite Hs', fold_apply_tag_refresh_only; rewrite Hbase; auto.
  - rewrite Hs'. apply fold_apply_tag_NoDup. now rewrite Hbase.
Qed.

End Tagging.

(** ** The theorems on [tag] at sample stores *)

Lemma tag_expands_one_level_witness :
  exists o' st',
    tag Sample.clean Sample.Tag_default_expiration 100 ["a"] false None
      Sample.store_cycle = Returned o' st' /\
    has_tag o' "a" = true /\ has_tag o' "b" = true /\ has_tag o' "c" = false.
Proof.
  assert (H1 : Py.strip "a" <> "") by discriminate.
  assert (H2 : forall t, In t (tag_objects Sample.store_cycle) ->
                         ~ In (Sample.clean "a") (replaces t)).
  { intros t [<- |[<- |[<- |[]]]] []. }
  assert (H3 : find (fun t => (tag_name t =? Sample.clean "a")%string)
                 (tag_objects Sample.store_cycle)
               = Some (mkTag "a" 0 ["b"] [] None)) by reflexivity.
  assert (H4 : produces (mkTag "a" 0 ["b"] [] None) = ["b"]) by reflexivity.
  assert (H5 : "b" <> Sample.clean "a") by discriminate.
  destruct (tag_expands_one_level Sample.clean Sample.Tag_default_expiration
              100 "a" (mkTag "a" 0 ["b"] [] None) "b" None Sample.store_cycle
              H1 H2 H3 H4 H5)
    as [o' [st' [E [G1 [G2 [_ G4]]]]]].
  exists o', st'. split; [exact E|]. split; [exact G1|]. split; [exact G2|].
  assert (N1 : "c" <> Sample.clean "a") by discriminate.
  assert (N2 : "c" <> "b") by discriminate.
  destruct (G4 "c" N1 N2) as [_ G]. rewrite G. reflexivity.
Defined.

Lemma tag_twice_refreshes_witness :
  exists o1 s1 o2 s2 entry,
    tag Sample.clean Sample.Tag_default_expiration 100 ["legacy"] false None
      Sample.store_alias = Returned o1 s1 /\
    tag Sample.clean Sample.Tag_default_expiration 200 ["legacy"] false None
      s1 = Returned o2 s2 /\
    filter (named "b") (tags o2) = [entry] /\
    last_seen entry = 200 /\ fresh entry = true /\
    tag_names (tags o2) = tag_names (tags o1) /\
    NoDup (tag_names (tags o2)).
Proof.
  assert (H1 : Py.strip "legacy" <> "") by discriminate.
  assert (H2 : NoDup (tag_names (tags (self Sample.store_alias)))) by constructor.
  assert (H3 : resolve_tag Sample.Tag_default_expiration (Sample.clean "legacy")
                 Sample.store_alias
               = Returned (mkTag "b" 3 [] ["legacy"] None) Sample.store_alias)
    by reflexivity.
  exact (tag_twice_refreshes Sample.clean Sample.Tag_default_expiration
           100 200 "legacy" None None Sample.store_alias
           (mkTag "b" 3 [] ["legacy"] None) Sample.store_alias H1 H2 H3).
Defined.

(** C1, as stated, fails: ["legacy"] is a non-blank name, and after
    tagging twice with it the observable holds no entry of that name; the
    one entry it holds is named ["b"], the tag that lists ["legacy"] in
    [replaces]. *)
Lemma tag_twice_alias_has_no_entry_of_that_name :
  exists o1 s1 o2 s2,
    tag Sample.clean Sample.Tag_default_expiration 100 ["legacy"] false None
      Sample.store_alias = Returned o1 s1 /\
    tag Sample.clean Sample.Tag_default_expiration 200 ["legacy"] false None
      s1 = Returned o2 s2 /\
    filter (named "legacy") (tags o2) = [] /\
    tags o2 = [mkObservableTag "b" 100 200 None true].
Proof.
  eexists. eexists. eexists. eexists.
  split; [reflexivity|]. split; [reflexivity|]. split; reflexivity.
Qed.

(** * Further properties *)

(** ** [untag] *)

Lemma filter_idempotent {A : Type} (p : A -> bool) (l : list A) :
  filter p (filter p l) = filter p l.
Proof.
  induction l as [|a l IH]; simpl; [reflexivity|].
  destruct (p a) eqn:E; simpl; [rewrite E; now f_equal | exact IH].
Qed.

(** X1: [untag] removes every entry whose name is listed and keeps the
    others in place; afterwards no listed name is held, and untagging
    again changes nothing (removing an absent tag is a no-op). *)
Theorem untag_removes_exactly (names : list string) (st : Store) :
  untag names st =
    with_self st
      (set_tags (self st)
         (filter (fun t => negb (Py.mem (name t) names)) (tags (self st)))) /\
  untag names (untag names st) = untag names st /\
  (forall n, In n names -> has_tag (self (untag names st)) n = false).
Proof.
  assert (E : forall s, untag names s =
            with_self s
              (set_tags (self s)
                 (filter (fun t => negb (Py.mem (name t) names)) (tags (self s))))).
  { intro s. unfold untag. apply fold_pull_tags. }
  split; [apply E|]. split.
  - rewrite (E (untag names st)), (E st). simpl.
    unfold with_self, set_tags. simpl. now rewrite filter_idempotent.
  - intros n Hn. rewrite E. apply has_tag_false_iff. simpl.
    unfold tag_names. rewrite in_map_iff. intros [t [Ht1 Ht2]].
    apply filter_In in Ht2. destruct Ht2 as [_ Ht2].
    apply negb_true_iff in Ht2. subst n.
    apply mem_iff in Hn. congruence.
Qed.

(** ** [expire_tags] over time *)

Lemma expired_stale (now : Z) (t : ObservableTag) :
  expired now (stale_entry t) = expired now t.
Proof. reflexivity. Qed.

(** X2: expiring at a time [now1] and then again at a later time [now2]
    gives the store that expiring once at [now2] gives; in particular
    expiring twice at the same time is expiring once. *)
Theorem expire_tags_later_absorbs (now1 now2 : Z) (st : Store) :
  now1 <= now2 ->
  expire_tags now2 (expire_tags now1 st) = expire_tags now2 st.
Proof.
  intro Hle. unfold expire_tags, with_self, set_tags. simpl. f_equal. f_equal.
  rewrite map_map. apply map_ext. intro t.
  destruct (expired now1 t) eqn:E1.
  - rewrite expired_stale.
    assert (E2 : expired now2 t = true).
    { apply expired_iff in E1. apply expired_iff.
      destruct E1 as [d [H1 [H2 H3]]]. exists d. repeat split; auto. lia. }
    rewrite E2. reflexivity.
  - reflexivity.
Qed.

Lemma expire_tags_later_absorbs_witness :
  expire_tags 200
    (expire_tags 100 (Sample.store [Sample.entry "x" 1 (Some 50) true] Sample.catalog_ab))
  = expire_tags 200 (Sample.store [Sample.entry "x" 1 (Some 50) true] Sample.catalog_ab).
Proof. apply expire_tags_later_absorbs. lia. Defined.

(** ** [change_tag] at its edges *)

Lemma pull_name_absent_id n ts :
  ~ In n (tag_names ts) -> pull_name n ts = ts.
Proof.
  intro H. unfold pull_name. induction ts as [|t r IH]; simpl; [reflexivity|].
  simpl in H. destruct (named n t) eqn:E.
  - apply named_iff in E. tauto.
  - simpl. f_equal. apply IH. tauto.
Qed.

(** X3: renaming a tag to its own name deletes it: [change_tag(n, n)]
    leaves the tag list without any entry named [n], the other entries
    untouched. *)
Theorem change_tag_same_name_deletes (now : Z) (n : string) (st : Store) :
  exists o',
    change_tag now n n st = Returned o' (with_self st o') /\
    tags o' = pull_name n (tags (self st)) /\
    has_tag o' n = false.
Proof.
  exists (set_tags (self st) (pull_name n (tags (self st)))).
  assert (Hgone : has_tag (set_tags (self st) (pull_name n (tags (self st)))) n
                  = false).
  { apply has_tag_false_iff. simpl. rewrite pull_name_In. tauto. }
  split; [|split; [reflexivity | exact Hgone]].
  unfold change_tag, modify.
  destruct (has_tag (self st) n) eqn:H; simpl.
  - rewrite H. simpl. rewrite Hgone. reflexivity.
  - rewrite H. simpl. rewrite H.
    apply has_tag_false_iff in H. rewrite (pull_name_absent_id _ _ H).
    destruct st as [o c e l]; destruct o; reflexivity.
Qed.

(** X4: when no entry is named [old_tag], [change_tag] renames nothing
    and still sets [last_seen] of the first entry named [new_tag] to
    [now]; the names held are those held before. *)
Theorem change_tag_absent_touches_new (now : Z) (old_tag new_tag : string)
    (st : Store) :
  has_tag (self st) old_tag = false ->
  exists o',
    change_tag now old_tag new_tag st = Returned o' (with_self st o') /\
    tags o' = set_positional new_tag (touch_entry now) (tags (self st)) /\
    tag_names (tags o') = tag_names (tags (self st)).
Proof.
  intro Hold.
  exists (set_tags (self st)
            (set_positional new_tag (touch_entry now) (tags (self st)))).
  split; [|split; [reflexivity|]].
  - unfold change_tag, modify. rewrite Hold. simpl. rewrite Hold. simpl.
    destruct (has_tag (self st) new_tag) eqn:Hnew; simpl; [reflexivity|].
    apply has_tag_false_iff in Hnew.
    rewrite (set_positional_absent _ _ _ Hnew).
    destruct st as [o c e l]; destruct o; reflexivity.
  - simpl. now apply set_positional_names.
Qed.

Lemma change_tag_absent_touches_new_witness :
  exists o',
    change_tag 100 "gone" "new" Sample.store_old_new
    = Returned o' (with_self Sample.store_old_new o') /\
    tags o' = set_positional "new" (touch_entry 100)
                (tags (self Sample.store_old_new)) /\
    tag_names (tags o') = tag_names (tags (self Sample.store_old_new)).
Proof. apply change_tag_absent_touches_new. reflexivity. Defined.

Lemma NoDup_replace_middle (l1 l2 : list string) (a b : string) :
  NoDup (l1 ++ a :: l2) -> ~ In b (l1 ++ a :: l2) -> NoDup (l1 ++ b :: l2).
Proof.
  intros Hnd Hb.
  pose proof (NoDup_remove_1 _ _ _ Hnd) as H1.
  apply NoDup_Add with (a := b) (l := l1 ++ l2).
  - apply Add_app.
  - split; [exact H1|]. intro Hin. apply Hb.
    apply in_app_or in Hin. apply in_or_app. simpl. tauto.
Qed.

(** X5: [change_tag] keeps the tag list free of duplicate names, for any
    two names, equal or not. *)
Theorem change_tag_keeps_names_unique (now : Z) (old_tag new_tag : string)
    (st : Store) :
  NoDup (tag_names (tags (self st))) ->
  NoDup (tag_names (tags (self (store_of (change_tag now old_tag new_tag st))))).
Proof.
  intro Hnd. unfold change_tag, modify.
  destruct (has_tag (self st) old_tag && negb (has_tag (self st) new_tag)) eqn:Hq;
    simpl.
  - apply andb_true_iff in Hq. destruct Hq as [Hold Hnew].
    apply negb_true_iff in Hnew.
    apply has_tag_iff in Hold. apply has_tag_false_iff in Hnew.
    destruct (set_positional_split old_tag (rename_entry new_tag) _ Hold)
      as [l1 [e [l2 [H1 [H2 [_ H4]]]]]].
    rewrite H4, tag_names_app. simpl.
    rewrite H1, tag_names_app in Hnd, Hnew. simpl in Hnd, Hnew.
    now apply NoDup_replace_middle with (a := name e).
  - assert (Hp : NoDup (tag_names (pull_name old_tag (tags (self st)))))
      by now apply pull_name_NoDup.
    destruct (has_tag (self st) old_tag) eqn:Hold; simpl.
    + destruct (has_tag (set_tags (self st) (pull_name old_tag (tags (self st))))
                  new_tag); simpl; [|exact Hp].
      now rewrite set_positional_names.
    + destruct (has_tag (self st) new_tag); simpl; [|exact Hnd].
      now rewrite set_positional_names.
Qed.

Lemma change_tag_keeps_names_unique_witness :
  NoDup (tag_names (tags (self (store_of
           (change_tag 100 "old" "new" Sample.store_old_new))))).
Proof.
  apply change_tag_keeps_names_unique.
  simpl. constructor; [|constructor; [|constructor]]; simpl.
  - intros [H|H]; [discriminate H | exact H].
  - intro H; exact H.
Defined.

(** ** Invariants of the loop of [tag] *)

Lemma set_positional_app n f l1 l2 :
  set_positional n f (l1 ++ l2) =
  if existsb (named n) l1 then set_positional n f l1 ++ l2
  else l1 ++ set_positional n f l2.
Proof.
  induction l1 as [|t r IH]; simpl; [reflexivity|].
  destruct (named n t); simpl; [reflexivity|].
  rewrite IH. now destruct (existsb (named n) r).
Qed.

Lemma Forall2_set_positional {A : Type} (R : A -> ObservableTag -> Prop) n f l l' :
  (forall a b, R a b -> R a (f b)) ->
  Forall2 R l l' -> Forall2 R l (set_positional n f l').
Proof.
  intros Hf H. induction H as [|a b l l' Hab Hl IH]; simpl; [constructor|].
  destruct (named n b); constructor; auto.
Qed.

Lemma Forall_set_positional (P : ObservableTag -> Prop) n f l :
  (forall t, P t -> P (f t)) -> Forall P l -> Forall P (set_positional n f l).
Proof.
  intros Hf H. induction H as [|t l Ht Hl IH]; simpl; [constructor|].
  destruct (named n t); constructor; auto.
Qed.

Lemma tag_names_filter_NoDup (keep : ObservableTag -> bool) ts :
  NoDup (tag_names ts) -> NoDup (tag_names (filter keep ts)).
Proof.
  unfold tag_names. induction ts as [|t r IH]; simpl; intro H; [constructor|].
  inversion H as [|x xs Hx Hxs]; subst.
  destruct (keep t); simpl; [|auto].
  constructor; [|auto]. intro Hin. apply Hx.
  apply in_map_iff in Hin. destruct Hin as [y [Hy1 Hy2]].
  apply filter_In in Hy2. apply in_map_iff. exists y. tauto.
Qed.

Section TaggingInvariants.

Variable clean : string -> string.
Variable Tag_default_expiration : option Z.

(** The only exception of [resolve_tag] leaves the store as it was. *)
Lemma resolve_tag_raised n st e s :
  resolve_tag Tag_default_expiration n st = Raised e s ->
  e = MultipleObjectsReturned /\ s = st.
Proof.
  unfold resolve_tag, Tag_get_or_create.
  destruct (filter _ (tag_objects st)) as [|t1 [|t2 l]].
  - destruct (find _ (tag_objects st)); discriminate.
  - discriminate.
  - intro H. injection H as <- <-. auto.
Qed.

(** A rule for the loop: a property [J] of the tag list that every
    [apply_tag] keeps, under a property [E] of the loop-carried
    expiration, holds of the store the loop ends with, whether it returns
    or raises. *)
Lemma tag_loop_invariant (J : list ObservableTag -> Prop) (E : option Z -> Prop)
    (now : Z) :
  (forall e n st, E e -> J (tags (self st)) ->
                  J (tags (self (apply_tag now e n st)))) ->
  (forall e d, E e -> E (if negb (Py.td_truthy e) then d else e)) ->
  forall L e tagged st,
    E e -> J (tags (self st)) ->
    J (tags (self (store_of
         (tag_loop clean Tag_default_expiration now L e tagged st)))).
Proof.
  intros Happly Hexp.
  induction L as [|x L IH]; intros e tagged st He HJ; simpl; [exact HJ|].
  destruct (negb (Py.strip x =? "")%string); [|now apply IH].
  destruct (resolve_tag Tag_default_expiration (clean x) st) as [t st1|ex s] eqn:Hr.
  - apply IH; [now apply Hexp|].
    pose proof (resolve_tag_self _ _ _ _ _ Hr) as Hself.
    destruct (fold_link_frame now (entities_tagged (tag_name t) st1) st1)
      as [Hl _].
    assert (HJ0 : J (tags (self (fold_left
                    (fun s en => active_link_to now en "Tagged" "tags" s)
                    (entities_tagged (tag_name t) st1) st1)))).
    { now rewrite Hl, Hself. }
    revert HJ0. generalize (fold_left
                    (fun s en => active_link_to now en "Tagged" "tags" s)
                    (entities_tagged (tag_name t) st1) st1).
    induction (produces t ++ [tag_name t]) as [|n ns IHn]; intros s0 H0; simpl;
      [exact H0|].
    apply IHn. apply Happly; [now apply Hexp | exact H0].
  - apply resolve_tag_raised in Hr. destruct Hr as [_ ->]. exact HJ.
Qed.

(** The tag list that [tag] ends with is the one its loop ends with. *)
Lemma tag_tags now L strict e st :
  tags (self (store_of (tag clean Tag_default_expiration now L strict e st))) =
  tags (self (store_of
    (tag_loop clean Tag_default_expiration now L e false
       (if strict then remove_other_tags L st else st)))).
Proof.
  unfold tag. destruct (tag_loop _ _ _ _ _ _ _) as [b s|ex s]; simpl;
    [now destruct b | reflexivity].
Qed.

(** X6: whatever names are passed, strict or not, with or without
    expiration, and whether the call returns or raises, [tag] leaves a tag
    list without duplicate names when it started from one. *)
Theorem tag_keeps_names_unique now L strict e st :
  NoDup (tag_names (tags (self st))) ->
  NoDup (tag_names (tags (self (store_of
    (tag clean Tag_default_expiration now L strict e st))))).
Proof.
  intro Hnd. rewrite tag_tags.
  apply (tag_loop_invariant (fun ts => NoDup (tag_names ts)) (fun _ => True)).
  - intros e0 n s _ H. now apply apply_tag_NoDup.
  - trivial.
  - trivial.
  - destruct strict; [|exact Hnd].
    destruct (tag_strict_removes_by_raw_name clean Tag_default_expiration
                now L e st) as [-> _].
    simpl. now apply tag_names_filter_NoDup.
Qed.

Lemma Forall2_same {A : Type} (R : A -> A -> Prop) (l : list A) :
  (forall a, R a a) -> Forall2 R l l.
Proof. intro H. induction l; constructor; auto. Qed.

(** The shape of the tag list after a plain call: the entries held before,
    each either untouched or refreshed, followed by entries pushed during
    the call; [X] is any further property of the pushed entries that
    pushing establishes and refreshing keeps. *)
Lemma tag_entries_shape (E : option Z -> Prop) (X : ObservableTag -> Prop)
    now L e st :
  (forall e0 n, E e0 -> X (new_ObservableTag now n e0)) ->
  (forall t, X t -> X (refresh_entry now t)) ->
  (forall e0 d, E e0 -> E (if negb (Py.td_truthy e0) then d else e0)) ->
  E e ->
  exists kept news,
    tags (self (store_of (tag clean Tag_default_expiration now L false e st)))
    = kept ++ news /\
    Forall2
      (fun t t' =>
         name t' = name t /\ first_seen t' = first_seen t /\
         expiration t' = expiration t /\
         (t' = t \/ (last_seen t' = now /\ fresh t' = true)))
      (tags (self st)) kept /\
    Forall
      (fun t => first_seen t = now /\ last_seen t = now /\ fresh t = true /\ X t)
      news.
Proof.
  intros HX1 HX2 HE He. rewrite tag_tags.
  apply (tag_loop_invariant
           (fun ts => exists kept news,
              ts = kept ++ news /\
              Forall2
                (fun t t' =>
                   name t' = name t /\ first_seen t' = first_seen t /\
                   expiration t' = expiration t /\
                   (t' = t \/ (last_seen t' = now /\ fresh t' = true)))
                (tags (self st)) kept /\
              Forall
                (fun t => first_seen t = now /\ last_seen t = now /\
                          fresh t = true /\ X t) news) E);
    [| exact HE | exact He |].
  - intros e0 n s He0 [kept [news [H1 [H2 H3]]]].
    destruct (has_tag (self s) n) eqn:Hn.
    + rewrite apply_tag_present by exact Hn. simpl.
      rewrite H1, set_positional_app.
      destruct (existsb (named n) kept).
      * exists (set_positional n (refresh_entry now) kept), news.
        split; [reflexivity|]. split; [|exact H3].
        apply Forall2_set_positional; [|exact H2].
        intros a b [R1 [R2 [R3 _]]]. simpl.
        split; [exact R1|]. split; [exact R2|]. split; [exact R3|].
        right. split; reflexivity.
      * exists kept, (set_positional n (refresh_entry now) news).
        split; [reflexivity|]. split; [exact H2|].
        apply Forall_set_positional; [|exact H3].
        intros t [N1 [N2 [N3 N4]]]. simpl.
        split; [exact N1|]. split; [reflexivity|]. split; [reflexivity|].
        now apply HX2.
    + rewrite apply_tag_absent by exact Hn. simpl.
      exists kept, (news ++ [new_ObservableTag now n e0]).
      split; [now rewrite H1, app_assoc|]. split; [exact H2|].
      apply Forall_app. split; [exact H3|].
      constructor; [|constructor]. simpl.
      split; [reflexivity|]. split; [reflexivity|]. split; [reflexivity|].
      now apply HX1.
  - exists (tags (self st)), []. split; [now rewrite app_nil_r|].
    split; [|constructor].
    apply Forall2_same. intro a.
    split; [reflexivity|]. split; [reflexivity|]. split; [reflexivity|].
    now left.
Qed.

(** X7: a plain (non-strict) call of [tag] never removes or reorders an
    entry and never changes the name, [first_seen] or expiration of one:
    the tag list it leaves, on return or on raise, is the list held
    before, each entry either untouched or refreshed ([last_seen = now],
    [fresh]), followed by the entries pushed during the call, which are
    fresh and first and last seen [now]. *)
Theorem tag_keeps_entries now L e st :
  exists kept news,
    tags (self (store_of (tag clean Tag_default_expiration now L false e st)))
    = kept ++ news /\
    Forall2
      (fun t t' =>
         name t' = name t /\ first_seen t' = first_seen t /\
         expiration t' = expiration t /\
         (t' = t \/ (last_seen t' = now /\ fresh t' = true)))
      (tags (self st)) kept /\
    Forall
      (fun t => first_seen t = now /\ last_seen t = now /\ fresh t = true)
      news.
Proof.
  destruct (tag_entries_shape (fun _ => True) (fun _ => True) now L e st
              (fun _ _ _ => I) (fun _ _ => I) (fun _ _ _ => I) I)
    as [kept [news [H1 [H2 H3]]]].
  exists kept, news. split; [exact H1|]. split; [exact H2|].
  eapply Forall_impl; [|exact H3]. simpl. tauto.
Qed.

(** X8: when the caller passes an expiration that is not false (neither
    [None] nor the zero duration), every entry pushed by the call carries
    exactly that expiration, for every name of the list. *)
Theorem tag_uses_given_expiration now L d st :
  d <> 0 ->
  exists kept news,
    tags (self (store_of
      (tag clean Tag_default_expiration now L false (Some d) st)))
    = kept ++ news /\
    List.length kept = List.length (tags (self st)) /\
    Forall (fun t => expiration t = Some d) news.
Proof.
  intro Hd.
  assert (Ht : Py.td_truthy (Some d) = true).
  { simpl. now apply negb_true_iff, Z.eqb_neq. }
  assert (P1 : forall e0 n, e0 = Some d ->
                 expiration (new_ObservableTag now n e0) = Some d).
  { intros e0 n ->. reflexivity. }
  assert (P2 : forall t, expiration t = Some d ->
                 expiration (refresh_entry now t) = Some d).
  { intros t H. exact H. }
  assert (P3 : forall e0 d0, e0 = Some d ->
                 (if negb (Py.td_truthy e0) then d0 else e0) = Some d).
  { intros e0 d0 ->. now rewrite Ht. }
  destruct (tag_entries_shape (fun e0 => e0 = Some d)
              (fun t => expiration t = Some d) now L (Some d) st
              P1 P2 P3 eq_refl)
    as [kept [news [H1 [H2 H3]]]].
  exists kept, news. split; [exact H1|]. split.
  - symmetry. eapply Forall2_length. exact H2.
  - eapply Forall_impl; [|exact H3]. simpl. tauto.
Qed.

End TaggingInvariants.

(** ** What [tag] returns, raises and stamps *)

Section TaggingOutcome.

Variable clean : string -> string.
Variable Tag_default_expiration : option Z.

Lemma tag_loop_tagged now L e tagged st b s :
  tag_loop clean Tag_default_expiration now L e tagged st = Returned b s ->
  b = tagged || existsb (fun x => negb (Py.strip x =? "")%string) L.
Proof.
  revert e tagged st. induction L as [|x L IH]; intros e tagged st; simpl.
  - intro H. injection H as <- _. now rewrite orb_false_r.
  - destruct (negb (Py.strip x =? "")%string); simpl.
    + destruct (resolve_tag _ _ _) as [t st1|ex s1]; [|discriminate].
      intro H. apply IH in H. rewrite H. simpl. now rewrite orb_true_r.
    + apply IH.
Qed.

Lemma tag_loop_blank now L e tagged st :
  existsb (fun x => negb (Py.strip x =? "")%string) L = false ->
  tag_loop clean Tag_default_expiration now L e tagged st = Returned tagged st.
Proof.
  induction L as [|x L IH]; simpl; intro H; [reflexivity|].
  apply orb_false_iff in H. destruct H as [H1 H2]. rewrite H1. now apply IH.
Qed.

(** X9: when [tag] returns and at least one name of the list is not
    blank, the observable it returns has [last_tagged] set to [now]. *)
Theorem tag_stamps_last_tagged now L strict e st o s :
  tag clean Tag_default_expiration now L strict e st = Returned o s ->
  existsb (fun x => negb (Py.strip x =? "")%string) L = true ->
  last_tagged o = Some now /\ self s = o.
Proof.
  unfold tag. intros H Hx.
  destruct (tag_loop _ _ _ _ _ _ _) as [b s1|ex s1] eqn:Hl; [|discriminate].
  apply tag_loop_tagged in Hl. rewrite Hx in Hl. simpl in Hl. subst b.
  injection H as <- <-. split; reflexivity.
Qed.

(** X10: when every name of the list is blank (or the list is empty), a
    plain call of [tag] returns the observable as it is, [last_tagged]
    included, and changes nothing in the store: blank names are skipped,
    not refused. *)
Theorem tag_blank_names_change_nothing now L e st :
  (forall x, In x L -> Py.strip x = "") ->
  tag clean Tag_default_expiration now L false e st = Returned (self st) st.
Proof.
  intro H. unfold tag.
  rewrite tag_loop_blank; [reflexivity|].
  destruct (existsb _ L) eqn:E; [|reflexivity].
  apply existsb_exists in E. destruct E as [x [Hx1 Hx2]].
  apply negb_true_iff, String.eqb_neq in Hx2. now apply H in Hx1.
Qed.

(** X11: a strict call with the empty list removes every tag of the
    observable and leaves [last_tagged], the catalog and the links as they
    were. *)
Theorem tag_strict_empty_clears now e st :
  tag clean Tag_default_expiration now [] true e st =
  Returned (set_tags (self st) []) (with_self st (set_tags (self st) [])).
Proof.
  unfold tag.
  destruct (tag_strict_removes_by_raw_name clean Tag_default_expiration
              now [] e st) as [-> _].
  simpl.
  replace (filter (fun _ : ObservableTag => false) (tags (self st)))
    with (@nil ObservableTag); [reflexivity|].
  induction (tags (self st)); simpl; auto.
Qed.

(** The number of catalog tags that list a name in [replaces] is the same
    after a resolution and after an application. *)
Lemma alias_count_shape m c c' :
  map (fun t => (tag_name t, produces t, replaces t, default_expiration t)) c =
  map (fun t => (tag_name t, produces t, replaces t, default_expiration t)) c' ->
  List.length (filter (fun t => Py.mem m (replaces t)) c) =
  List.length (filter (fun t => Py.mem m (replaces t)) c').
Proof.
  intro H. apply (filter_replaces_shape m) in H.
  apply (f_equal (@List.length _)) in H. now rewrite !length_map in H.
Qed.

Lemma alias_count_resolve n st t st1 m :
  resolve_tag Tag_default_expiration n st = Returned t st1 ->
  List.length (filter (fun t => Py.mem m (replaces t)) (tag_objects st1)) =
  List.length (filter (fun t => Py.mem m (replaces t)) (tag_objects st)).
Proof.
  unfold resolve_tag, Tag_get_or_create.
  destruct (filter (fun t0 => Py.mem n (replaces t0)) (tag_objects st))
    as [|t1 [|t2 l]].
  - destruct (find _ (tag_objects st)); intro H; injection H as _ <-;
      [reflexivity|].
    simpl. rewrite filter_app. simpl. now rewrite app_nil_r.
  - intro H. now injection H as _ <-.
  - discriminate.
Qed.

Lemma existsb_same {A : Type} (f g : A -> bool) (l : list A) :
  (forall x, f x = g x) -> existsb f l = existsb g l.
Proof.
  intro H. induction l as [|a l IH]; simpl; [reflexivity|].
  now rewrite H, IH.
Qed.

Lemma tag_loop_outcome now L e tagged st :
  if existsb
       (fun x => negb (Py.strip x =? "")%string &&
                 (2 <=? List.length
                          (filter (fun t => Py.mem (clean x) (replaces t))
                             (tag_objects st)))%nat) L
  then exists s,
         tag_loop clean Tag_default_expiration now L e tagged st
         = Raised MultipleObjectsReturned s
  else exists b s,
         tag_loop clean Tag_default_expiration now L e tagged st = Returned b s.
Proof.
  revert e tagged st. induction L as [|x L IH]; intros e tagged st; simpl.
  - eauto.
  - destruct (negb (Py.strip x =? "")%string); simpl; [|apply IH].
    unfold resolve_tag at 1 2.
    destruct (filter (fun t => Py.mem (clean x) (replaces t)) (tag_objects st))
      as [|t1 [|t2 l]] eqn:Ef.
    + simpl.
      destruct (Tag_get_or_create Tag_default_expiration (clean x) st)
        as [t st1] eqn:Hg.
      assert (Hr : resolve_tag Tag_default_expiration (clean x) st
                   = Returned t st1).
      { unfold resolve_tag. now rewrite Ef, Hg. }
      match goal with
      | |- context [tag_loop _ _ _ L ?e' true ?s3] =>
          specialize (IH e' true s3);
          assert (Hc : forall m,
                    List.length (filter (fun t => Py.mem m (replaces t))
                                   (tag_objects s3)) =
                    List.length (filter (fun t => Py.mem m (replaces t))
                                   (tag_objects st)))
      end.
      { intro m. rewrite (alias_count_shape m _ _ (fold_apply_tag_shape _ _ _ _)).
        destruct (fold_link_frame now (entities_tagged (tag_name t) st1) st1)
          as [_ ->].
        now apply alias_count_resolve with (n := clean x) (t := t). }
      rewrite (existsb_same _
                 (fun y => negb (Py.strip y =? "")%string &&
                           (2 <=? List.length
                                    (filter (fun t => Py.mem (clean y) (replaces t))
                                       (tag_objects st)))%nat)) in IH;
        [exact IH|].
      intro y. now rewrite Hc.
    + simpl.
      match goal with
      | |- context [tag_loop _ _ _ L ?e' true ?s3] =>
          specialize (IH e' true s3);
          assert (Hc : forall m,
                    List.length (filter (fun t => Py.mem m (replaces t))
                                   (tag_objects s3)) =
                    List.length (filter (fun t => Py.mem m (replaces t))
                                   (tag_objects st)))
      end.
      { intro m. rewrite (alias_count_shape m _ _ (fold_apply_tag_shape _ _ _ _)).
        now destruct (fold_link_frame now (entities_tagged (tag_name t1) st) st)
          as [_ ->]. }
      rewrite (existsb_same _
                 (fun y => negb (Py.strip y =? "")%string &&
                           (2 <=? List.length
                                    (filter (fun t => Py.mem (clean y) (replaces t))
                                       (tag_objects st)))%nat)) in IH;
        [exact IH|].
      intro y. now rewrite Hc.
    + simpl. eauto.
Qed.

Lemma strict_step_tag_objects L (strict : bool) st :
  tag_objects (if strict then remove_other_tags L st else st) = tag_objects st.
Proof.
  destruct strict; [|reflexivity].
  destruct (tag_strict_removes_by_raw_name clean Tag_default_expiration
              0 L None st) as [-> _].
  reflexivity.
Qed.

(** X12: [tag] raises exactly when some non-blank name of the list cleans
    to a name that two or more catalog tags list in [replaces], and the
    exception is then [MultipleObjectsReturned]; when every non-blank name
    has at most one such tag, [tag] returns.  It raises nothing else. *)
Theorem tag_raises_iff_ambiguous now L strict e st :
  ((exists x, In x L /\ Py.strip x <> "" /\
      (2 <= List.length
              (filter (fun t => Py.mem (clean x) (replaces t)) (tag_objects st)))%nat)
   <-> exists s, tag clean Tag_default_expiration now L strict e st
                 = Raised MultipleObjectsReturned s) /\
  ((forall x, In x L -> Py.strip x <> "" ->
      (List.length
         (filter (fun t => Py.mem (clean x) (replaces t)) (tag_objects st)) <= 1)%nat)
   <-> exists o s, tag clean Tag_default_expiration now L strict e st
                   = Returned o s).
Proof.
  pose proof (tag_loop_outcome now L e false
                (if strict then remove_other_tags L st else st)) as H.
  rewrite strict_step_tag_objects in H.
  unfold tag.
  destruct (existsb _ L) eqn:Ex.
  - destruct H as [s Hs]. rewrite Hs.
    apply existsb_exists in Ex. destruct Ex as [x [Hx1 Hx2]].
    apply andb_true_iff in Hx2. destruct Hx2 as [Hx2 Hx3].
    apply negb_true_iff, String.eqb_neq in Hx2. apply Nat.leb_le in Hx3.
    split; split.
    + intros _. eauto.
    + intros _. exists x. auto.
    + intro Hall. specialize (Hall x Hx1 Hx2). lia.
    + intros [o [s' Hr]]. discriminate.
  - destruct H as [b [s Hs]]. rewrite Hs.
    assert (Hall : forall x, In x L -> Py.strip x <> "" ->
              (List.length
                 (filter (fun t => Py.mem (clean x) (replaces t))
                    (tag_objects st)) <= 1)%nat).
    { intros x Hx1 Hx2.
      destruct (2 <=? List.length
                        (filter (fun t => Py.mem (clean x) (replaces t))
                           (tag_objects st)))%nat eqn:El.
      - assert (existsb
                  (fun x => negb (Py.strip x =? "")%string &&
                            (2 <=? List.length
                                     (filter (fun t => Py.mem (clean x) (replaces t))
                                        (tag_objects st)))%nat) L = true).
        { apply existsb_exists. exists x. split; [exact Hx1|].
          rewrite El. apply String.eqb_neq in Hx2. now rewrite Hx2. }
        congruence.
      - apply Nat.leb_gt in El. lia. }
    split; split.
    + intros [x [Hx1 [Hx2 Hx3]]]. specialize (Hall x Hx1 Hx2). lia.
    + intros [s' Hr]. discriminate.
    + intros _. eauto.
    + intros _. exact Hall.
Qed.

Lemma fold_apply_tag_refresh_catalog now e L st :
  (forall m, In m L -> In m (tag_names (tags (self st)))) ->
  tag_objects (fold_left (fun s t => apply_tag now e t s) L st) = tag_objects st.
Proof.
  revert st. induction L as [|n L IH]; intros st H; simpl; [reflexivity|].
  assert (Hn : has_tag (self st) n = true) by (apply has_tag_iff, H; now left).
  rewrite IH.
  - now rewrite apply_tag_present.
  - intros m Hm. apply apply_tag_In. left. apply H. now right.
Qed.

(** X13: tagging with a name whose catalog tag exists, when the
    observable already holds that tag and everything it produces, counts
    no use: the call returns with the catalog exactly as it was (use
    counts are incremented on insertion only) and with the same names. *)
Theorem tag_refresh_keeps_counts now x e st t :
  Py.strip x <> "" ->
  resolve_tag Tag_default_expiration (clean x) st = Returned t st ->
  (forall m, In m (produces t ++ [tag_name t]) -> has_tag (self st) m = true) ->
  exists o s,
    tag clean Tag_default_expiration now [x] false e st = Returned o s /\
    tag_objects s = tag_objects st /\
    tag_names (tags o) = tag_names (tags (self st)).
Proof.
  intros Hx Hr Hheld.
  destruct (tag_single clean Tag_default_expiration now x e st t st Hx Hr)
    as [s [Hs Ht]].
  destruct (fold_link_frame now (entities_tagged (tag_name t) st) st)
    as [Hself Hcat].
  assert (Hin : forall m, In m (produces t ++ [tag_name t]) ->
            In m (tag_names (tags (self (fold_left
                    (fun s en => active_link_to now en "Tagged" "tags" s)
                    (entities_tagged (tag_name t) st) st))))).
  { intros m Hm. rewrite Hself. now apply has_tag_iff, Hheld. }
  eexists. eexists. split; [exact Ht|]. simpl. split.
  - rewrite Hs, fold_apply_tag_refresh_catalog by exact Hin. exact Hcat.
  - rewrite Hs, fold_apply_tag_refresh_only by exact Hin. now rewrite Hself.
Qed.

Lemma resolve_tag_with_self n st t st1 o :
  resolve_tag Tag_default_expiration n st = Returned t st1 ->
  resolve_tag Tag_default_expiration n (with_self st o)
  = Returned t (with_self st1 o).
Proof.
  unfold resolve_tag, Tag_get_or_create. simpl.
  destruct (filter _ (tag_objects st)) as [|t1 [|t2 l]].
  - destruct (find _ (tag_objects st)); intro H; injection H as <- <-;
      reflexivity.
  - intro H. injection H as <- <-. reflexivity.
  - discriminate.
Qed.

(** X14: expiry is undone by tagging again: whatever [expire_tags] did at
    [now1], a later [tag] with a name that resolves to the tag [t] returns
    with exactly one entry named [tag_name t], fresh and last seen at the
    time of that call. *)
Theorem tag_restores_freshness now1 now2 x e st t st1 :
  Py.strip x <> "" ->
  NoDup (tag_names (tags (self st))) ->
  resolve_tag Tag_default_expiration (clean x) st = Returned t st1 ->
  exists o s entry,
    tag clean Tag_default_expiration now2 [x] false e (expire_tags now1 st)
    = Returned o s /\
    filter (named (tag_name t)) (tags o) = [entry] /\
    fresh entry = true /\ last_seen entry = now2.
Proof.
  intros Hx Hnd Hr.
  assert (Hr' : resolve_tag Tag_default_expiration (clean x) (expire_tags now1 st)
                = Returned t (with_self st1 (self (expire_tags now1 st)))).
  { unfold expire_tags at 1. now apply resolve_tag_with_self. }
  destruct (tag_single clean Tag_default_expiration now2 x e _ t _ Hx Hr')
    as [s [Hs Ht]].
  destruct (fold_apply_tag_last now2
              (if negb (Py.td_truthy e) then default_expiration t else e)
              (produces t) (tag_name t)
              (fold_left (fun s en => active_link_to now2 en "Tagged" "tags" s)
                 (entities_tagged (tag_name t)
                    (with_self st1 (self (expire_tags now1 st))))
                 (with_self st1 (self (expire_tags now1 st)))))
    as [entry [He1 [_ [He2 He3]]]].
  { destruct (fold_link_frame now2
                (entities_tagged (tag_name t)
                   (with_self st1 (self (expire_tags now1 st))))
                (with_self st1 (self (expire_tags now1 st)))) as [-> _].
    simpl. unfold tag_names. rewrite map_map.
    replace (map (fun t0 => name (if expired now1 t0 then stale_entry t0 else t0))
               (tags (self st)))
      with (tag_names (tags (self st))); [exact Hnd|].
    apply map_ext. intro t0. now destruct (expired now1 t0). }
  rewrite <- Hs in He1.
  eexists. eexists. exists entry. split; [exact Ht|]. simpl. auto.
Qed.

End TaggingOutcome.

(** ** The context store: [add_context], [remove_context] *)

Lemma context_eqb_eq (a b : Context) : context_eqb a b = true <-> a = b.
Proof.
  revert b. induction a as [|[k v] a IH]; intros [|[k' v'] b]; simpl;
    try (split; [discriminate | congruence]); [tauto|].
  rewrite !andb_true_iff, !String.eqb_eq, IH.
  split; [intros [[-> ->] ->]; reflexivity | intro H; injection H; auto].
Qed.

Lemma existsb_context_eqb (c : Context) (cs : list Context) :
  existsb (context_eqb c) cs = true <-> In c cs.
Proof.
  rewrite existsb_exists. split.
  - intros [x [H1 H2]]. apply context_eqb_eq in H2. now subst.
  - intro H. exists c. split; [exact H | now apply context_eqb_eq].
Qed.

Lemma add_to_set_context_In c cs x :
  In x (add_to_set_context c cs) <-> In x cs \/ x = c.
Proof.
  unfold add_to_set_context. destruct (existsb (context_eqb c) cs) eqn:E.
  - apply existsb_context_eqb in E. split; [auto | intros [H | ->]; auto].
  - rewrite in_app_iff. simpl. intuition auto.
Qed.

Lemma add_to_set_context_idempotent c cs :
  add_to_set_context c (add_to_set_context c cs) = add_to_set_context c cs.
Proof.
  assert (H : existsb (context_eqb c) (add_to_set_context c cs) = true).
  { apply existsb_context_eqb, add_to_set_context_In. now right. }
  unfold add_to_set_context at 1. now rewrite H.
Qed.

Lemma filter_all {A : Type} (p : A -> bool) (l : list A) :
  (forall x, In x l -> p x = true) -> filter p l = l.
Proof.
  induction l as [|a l IH]; simpl; intro H; [reflexivity|].
  rewrite (H a (or_introl eq_refl)). f_equal. apply IH. auto.
Qed.

(** What a successful [add_context] stores: the context list, with the
    entries of [replace_source] pulled when one is given, and the
    key-sorted entry added to it as to a set. *)
Lemma add_context_stores ctx rs st :
  has_key "source" ctx = true ->
  add_context ctx rs st =
    Returned
      (set_context (self st)
         (add_to_set_context (Py.sorted_items ctx)
            (match rs with
             | Some s => if Py.str_truthy s
                         then pull_context_source s (context (self st))
                         else context (self st)
             | None => context (self st)
             end)))
      (with_self st
         (set_context (self st)
            (add_to_set_context (Py.sorted_items ctx)
               (match rs with
                | Some s => if Py.str_truthy s
                            then pull_context_source s (context (self st))
                            else context (self st)
                | None => context (self st)
                end)))).
Proof.
  intro H. unfold add_context. rewrite H. simpl.
  destruct rs as [s|]; [destruct (Py.str_truthy s)|]; reflexivity.
Qed.

Lemma pull_context_source_idempotent s cs :
  pull_context_source s (pull_context_source s cs) = pull_context_source s cs.
Proof. apply filter_idempotent. Qed.

Lemma add_after_pull_idempotent s c cs :
  add_to_set_context c
    (pull_context_source s (add_to_set_context c (pull_context_source s cs)))
  = add_to_set_context c (pull_context_source s cs).
Proof.
  unfold add_to_set_context at 2 3.
  destruct (existsb (context_eqb c) (pull_context_source s cs)) eqn:E1.
  - rewrite pull_context_source_idempotent.
    unfold add_to_set_context. now rewrite E1.
  - assert (E : pull_context_source s (pull_context_source s cs ++ [c]) =
                pull_context_source s cs ++ pull_context_source s [c]).
    { unfold pull_context_source. rewrite filter_app.
      now rewrite filter_idempotent. }
    rewrite E. unfold pull_context_source at 2. simpl.
    destruct (match get_key "source" c with
              | Some v => negb (v =? s)%string
              | None => true
              end).
    + assert (E2 : existsb (context_eqb c) (pull_context_source s cs ++ [c])
                   = true).
      { apply existsb_context_eqb, in_or_app. right. now left. }
      unfold add_to_set_context. now rewrite E2.
    + rewrite app_nil_r. unfold add_to_set_context. now rewrite E1.
Qed.

(** X15: adding the same context again, with the same [replace_source],
    changes nothing: the second call returns the observable the first one
    returned and leaves the store as the first one left it (a call that
    fails the [assert] fails again, on the unchanged store). *)
Theorem add_context_idempotent ctx rs st :
  add_context ctx rs (store_of (add_context ctx rs st)) = add_context ctx rs st.
Proof.
  destruct (has_key "source" ctx) eqn:H.
  - destruct rs as [s|]; [destruct (Py.str_truthy s) eqn:Hs|];
      rewrite (add_context_stores ctx _ st H); simpl store_of;
      rewrite add_context_stores by exact H;
      unfold with_self, set_context; simpl; try rewrite Hs.
    + now rewrite add_after_pull_idempotent.
    + now rewrite add_to_set_context_idempotent.
    + now rewrite add_to_set_context_idempotent.
  - unfold add_context. rewrite H. reflexivity.
Qed.

(** X16: when the context has a ['source'] key, [add_context] returns
    with the key-sorted entry among the context entries, leaves the tags
    alone, and, when [replace_source] is a non-empty string [s], leaves no
    other entry whose source is [s]: any entry of source [s] in the result
    is the entry just added. *)
Theorem add_context_replaces_source ctx rs st :
  has_key "source" ctx = true ->
  exists o,
    add_context ctx rs st = Returned o (with_self st o) /\
    In (Py.sorted_items ctx) (context o) /\
    tags o = tags (self st) /\
    (forall s c,
        rs = Some s -> s <> "" -> In c (context o) ->
        get_key "source" c = Some s -> c = Py.sorted_items ctx).
Proof.
  intro H. eexists. split; [now apply add_context_stores|]. simpl.
  split; [apply add_to_set_context_In; now right|]. split; [reflexivity|].
  intros s c -> Hs Hc Hsrc.
  assert (Ht : Py.str_truthy s = true).
  { unfold Py.str_truthy. now apply negb_true_iff, String.eqb_neq. }
  rewrite Ht in Hc. apply add_to_set_context_In in Hc.
  destruct Hc as [Hc|Hc]; [|exact Hc].
  unfold pull_context_source in Hc. apply filter_In in Hc.
  destruct Hc as [_ Hc]. rewrite Hsrc, String.eqb_refl in Hc. discriminate.
Qed.

Lemma add_context_replaces_source_witness :
  exists o,
    add_context [("source", "feed"); ("ip", "5.6.7.8")] (Some "feed")
      (Sample.store [] Sample.catalog_ab)
    = Returned o (with_self (Sample.store [] Sample.catalog_ab) o) /\
    In (Py.sorted_items [("source", "feed"); ("ip", "5.6.7.8")]) (context o).
Proof.
  destruct (add_context_replaces_source
              [("source", "feed"); ("ip", "5.6.7.8")] (Some "feed")
              (Sample.store [] Sample.catalog_ab) eq_refl)
    as [o [H1 [H2 _]]].
  exists o. auto.
Defined.

(** *** The stored entry does not depend on the order of the fields *)

Lemma leb_iff a b : String.leb a b = true <-> a = b \/ String_as_OT.lt a b.
Proof.
  unfold String.leb.
  change (String.compare a b) with (String_as_OT.compare a b).
  destruct (String_as_OT.lt_strorder) as [Hirr Htr].
  destruct (String_as_OT.compare_spec a b) as [Hab|Hab|Hab].
  - split; auto.
  - split; auto.
  - split; [discriminate|]. intros [H|H]; exfalso.
    + subst. eapply Hirr. exact Hab.
    + eapply Hirr. eapply Htr; eassumption.
Qed.

Lemma leb_trans a b c :
  String.leb a b = true -> String.leb b c = true -> String.leb a c = true.
Proof.
  rewrite !leb_iff. destruct (String_as_OT.lt_strorder) as [_ Htr].
  intros [H1|H1] [H2|H2]; subst; auto. right. eapply Htr; eassumption.
Qed.

Lemma leb_refl a : String.leb a a = true.
Proof. apply leb_iff. now left. Qed.

Section SortedItems.

Variable V : Type.

Lemma insert_item_perm (kv : string * V) l :
  Permutation (Py.insert_item kv l) (kv :: l).
Proof.
  induction l as [|a l IH]; simpl; [reflexivity|].
  destruct (fst a <=? fst kv)%string; [|reflexivity].
  eapply perm_trans; [apply perm_skip, IH | apply perm_swap].
Qed.

Lemma sorted_items_perm (l : list (string * V)) :
  Permutation (Py.sorted_items l) l.
Proof.
  unfold Py.sorted_items.
  assert (H : forall acc,
             Permutation (fold_left (fun acc kv => Py.insert_item kv acc) l acc)
               (l ++ acc)).
  { induction l as [|a l IH]; intro acc; simpl; [reflexivity|].
    eapply perm_trans; [apply IH|].
    eapply perm_trans; [apply Permutation_app_head, insert_item_perm|].
    symmetry. apply Permutation_middle. }
  rewrite <- (app_nil_r l) at 2. apply H.
Qed.

Lemma insert_item_sorted (kv : string * V) l :
  StronglySorted (fun a b => (fst a <=? fst b)%string = true) l ->
  StronglySorted (fun a b => (fst a <=? fst b)%string = true)
    (Py.insert_item kv l).
Proof.
  intro H. induction H as [|a l Hl IH Ha]; simpl.
  - constructor; constructor.
  - destruct (fst a <=? fst kv)%string eqn:E.
    + constructor; [exact IH|].
      apply Forall_forall. intros x Hx.
      apply (Permutation_in _ (insert_item_perm kv l)) in Hx.
      destruct Hx as [<- |Hx]; [exact E|].
      rewrite Forall_forall in Ha. now apply Ha.
    + assert (E' : (fst kv <=? fst a)%string = true).
      { destruct (String.leb_total (fst a) (fst kv)); congruence. }
      constructor; [now constructor|].
      constructor; [exact E'|].
      eapply Forall_impl; [|exact Ha]. simpl. intros x Hx.
      now apply leb_trans with (b := fst a).
Qed.

Lemma sorted_items_sorted (l : list (string * V)) :
  StronglySorted (fun a b => (fst a <=? fst b)%string = true) (Py.sorted_items l).
Proof.
  unfold Py.sorted_items.
  assert (H : forall acc,
             StronglySorted (fun a b => (fst a <=? fst b)%string = true) acc ->
             StronglySorted (fun a b => (fst a <=? fst b)%string = true)
               (fold_left (fun acc kv => Py.insert_item kv acc) l acc)).
  { induction l as [|a l IH]; intros acc Hacc; simpl; [exact Hacc|].
    apply IH. now apply insert_item_sorted. }
  apply H. constructor.
Qed.

Lemma same_key_same_item (l : list (string * V)) a b :
  NoDup (map fst l) -> In a l -> In b l -> fst a = fst b -> a = b.
Proof.
  induction l as [|x l IH]; simpl; intros Hnd Ha Hb Hk; [contradiction|].
  inversion Hnd as [|k ks Hx Hks]; subst.
  destruct Ha as [-> |Ha], Hb as [-> |Hb]; auto.
  - exfalso. apply Hx. rewrite Hk. now apply in_map.
  - exfalso. apply Hx. rewrite <- Hk. now apply in_map.
Qed.

Lemma sorted_perm_unique (l1 l2 : list (string * V)) :
  StronglySorted (fun a b => (fst a <=? fst b)%string = true) l1 ->
  StronglySorted (fun a b => (fst a <=? fst b)%string = true) l2 ->
  Permutation l1 l2 -> NoDup (map fst l1) -> l1 = l2.
Proof.
  revert l2. induction l1 as [|a l1 IH]; intros l2 H1 H2 Hp Hnd.
  - apply Permutation_nil in Hp. now subst.
  - destruct l2 as [|b l2].
    { symmetry in Hp. apply Permutation_nil in Hp. discriminate. }
    inversion H1 as [|? ? H1t H1h]; subst.
    inversion H2 as [|? ? H2t H2h]; subst.
    rewrite Forall_forall in H1h, H2h.
    assert (Hb : In b (a :: l1)).
    { apply (Permutation_in _ (Permutation_sym Hp)). now left. }
    assert (Ha : In a (b :: l2)).
    { apply (Permutation_in _ Hp). now left. }
    assert (Hab : (fst a <=? fst b)%string = true).
    { destruct Hb as [<- |Hb]; [apply leb_refl | now apply H1h]. }
    assert (Hba : (fst b <=? fst a)%string = true).
    { destruct Ha as [<- |Ha]; [apply leb_refl | now apply H2h]. }
    assert (E : a = b).
    { apply (same_key_same_item (a :: l1)); auto; [now left|].
      now apply String.leb_antisym. }
    subst b. f_equal. apply IH; auto.
    + now apply Permutation_cons_inv in Hp.
    + simpl in Hnd. now inversion Hnd.
Qed.

End SortedItems.

Lemma has_key_perm k (c1 c2 : Context) :
  Permutation c1 c2 -> has_key k c1 = has_key k c2.
Proof.
  intro Hp. unfold has_key. apply eq_true_iff_eq. rewrite !existsb_exists.
  split; intros [x [H1 H2]]; exists x; split; auto.
  - now apply (Permutation_in _ Hp).
  - now apply (Permutation_in _ (Permutation_sym Hp)).
Qed.

(** X17: two context dictionaries with the same fields, in whatever
    order they were inserted, are stored as the same entry, so
    [add_context] has the same outcome on both; this is what lets the set
    semantics of the store deduplicate them. *)
Theorem add_context_ignores_field_order (c1 c2 : Context) rs st :
  Permutation c1 c2 ->
  NoDup (map fst c1) ->
  Py.sorted_items c1 = Py.sorted_items c2 /\
  add_context c1 rs st = add_context c2 rs st.
Proof.
  intros Hp Hnd.
  assert (E : Py.sorted_items c1 = Py.sorted_items c2).
  { apply sorted_perm_unique; try apply sorted_items_sorted.
    - eapply perm_trans; [apply sorted_items_perm|].
      eapply perm_trans; [exact Hp|]. symmetry. apply sorted_items_perm.
    - eapply Permutation_NoDup; [|exact Hnd].
      apply Permutation_map. symmetry. apply sorted_items_perm. }
  split; [exact E|].
  unfold add_context. rewrite (has_key_perm "source" c1 c2 Hp). now rewrite E.
Qed.

Lemma add_context_ignores_field_order_witness :
  Py.sorted_items [("source", "feed"); ("ip", "5.6.7.8")] =
  Py.sorted_items [("ip", "5.6.7.8"); ("source", "feed")] /\
  add_context [("source", "feed"); ("ip", "5.6.7.8")] None
    (Sample.store [] Sample.catalog_ab) =
  add_context [("ip", "5.6.7.8"); ("source", "feed")] None
    (Sample.store [] Sample.catalog_ab).
Proof.
  apply add_context_ignores_field_order.
  - apply perm_swap.
  - simpl. constructor; [|constructor; [|constructor]]; simpl.
    + intros [H|H]; [discriminate H | exact H].
    + intro H; exact H.
Defined.

Lemma get_key_unique (k v : string) (c : Context) :
  NoDup (map fst c) -> In (k, v) c -> get_key k c = Some v.
Proof.
  unfold get_key. induction c as [|[k' v'] c IH]; simpl; intros Hnd Hin;
    [contradiction|].
  inversion Hnd as [|? ? Hk Hc]; subst.
  destruct Hin as [E | Hin].
  - injection E as -> ->. now rewrite String.eqb_refl.
  - destruct (k' =? k)%string eqn:F.
    + apply String.eqb_eq in F. subst. exfalso. apply Hk.
      change k with (fst (k, v)). now apply in_map.
    + now apply IH.
Qed.

Lemma context_matches_self (c : Context) :
  NoDup (map fst c) -> context_matches c c = true.
Proof.
  intro Hnd. unfold context_matches. apply forallb_forall. intros [k v] Hin.
  simpl. rewrite (get_key_unique k v c Hnd Hin). apply String.eqb_refl.
Qed.

(** X18: removing a context that was just added gives back the store as
    it was, when the context is a dictionary with a ['source'] key and no
    entry stored before holds all of its fields (the pull removes every
    entry that does, the new one among them). *)
Theorem remove_context_undoes_add ctx st :
  has_key "source" ctx = true ->
  NoDup (map fst ctx) ->
  (forall c, In c (context (self st)) ->
             context_matches (Py.sorted_items ctx) c = false) ->
  remove_context ctx (store_of (add_context ctx None st))
  = Returned (self st) st.
Proof.
  intros H Hnd Hno. rewrite (add_context_stores ctx None st H).
  unfold remove_context. simpl.
  assert (Hself : context_matches (Py.sorted_items ctx) (Py.sorted_items ctx)
                  = true).
  { apply context_matches_self.
    eapply Permutation_NoDup; [|exact Hnd].
    apply Permutation_map. symmetry. apply sorted_items_perm. }
  assert (E : add_to_set_context (Py.sorted_items ctx) (context (self st))
              = context (self st) ++ [Py.sorted_items ctx]).
  { unfold add_to_set_context.
    destruct (existsb _ (context (self st))) eqn:F; [|reflexivity].
    apply existsb_context_eqb, Hno in F. congruence. }
  rewrite E, filter_app. simpl. rewrite Hself. simpl. rewrite app_nil_r.
  rewrite filter_all.
  - destruct st as [o c e l]; destruct o; reflexivity.
  - intros x Hx. apply negb_true_iff. now apply Hno.
Qed.

Lemma remove_context_undoes_add_witness :
  remove_context [("source", "other"); ("ip", "5.6.7.8")]
    (store_of (add_context [("source", "other"); ("ip", "5.6.7.8")] None
                 (Sample.store [] Sample.catalog_ab)))
  = Returned (self (Sample.store [] Sample.catalog_ab))
      (Sample.store [] Sample.catalog_ab).
Proof.
  apply remove_context_undoes_add; [reflexivity | |].
  - simpl. constructor; [|constructor; [|constructor]]; simpl.
    + intros [H|H]; [discriminate H | exact H].
    + intro H; exact H.
  - intros c [<- | []]. reflexivity.
Defined.

(** ** [add_source] *)

(** X19: [add_source] reports success, leaves the source among the
    sources, keeps a list of sources free of duplicates so, and adds
    nothing when called again with the same source. *)
Theorem add_source_is_set_insert source st :
  fst (add_source source st) = true /\
  In source (sources (self (snd (add_source source st)))) /\
  (NoDup (sources (self st)) ->
   NoDup (sources (self (snd (add_source source st))))) /\
  snd (add_source source (snd (add_source source st)))
  = snd (add_source source st).
Proof.
  unfold add_source, modify. simpl.
  destruct (Py.mem source (sources (self st))) eqn:E; simpl.
  - rewrite E. apply mem_iff in E. repeat split; auto.
  - assert (E' : Py.mem source (sources (self st) ++ [source]) = true).
    { apply mem_iff, in_or_app. right. now left. }
    rewrite E'. split; [reflexivity|]. split; [|split; [|reflexivity]].
    + apply in_or_app. right. now left.
    + intro Hnd. apply NoDup_rev in Hnd.
      rewrite <- (rev_involutive (_ ++ [source])).
      apply NoDup_rev. rewrite rev_app_distr. simpl.
      constructor; [|exact Hnd]. rewrite <- in_rev.
      intro Hin. apply mem_iff in Hin. congruence.
Qed.

(** ** [get_last_tagged] *)



(** X21: once [last_tagged] is set, [get_last_tagged] returns it and
    changes nothing; and whenever a call returns a value, that value is
    in [last_tagged] afterwards, so a second call returns it again and
    changes nothing. *)
Theorem get_last_tagged_caches (st : Store) :
  (forall t, last_tagged (self st) = Some t ->
             get_last_tagged st = (inr t, st)) /\
  (forall r st', get_last_tagged st = (inr r, st') ->
                 last_tagged (self st') = Some r /\
                 get_last_tagged st' = (inr r, st')).
Proof.
  split.
  - intros t H. unfold get_last_tagged. now rewrite H.
  - intros r st'. unfold get_last_tagged at 1.
    destruct (last_tagged (self st)) as [t|] eqn:H.
    + intro E. injection E as <- <-. unfold get_last_tagged. now rewrite H.
    + destruct (latest_seen (tags (self st)) epoch) as [e|last];
        [discriminate|].
      intro E. injection E as <- <-. split; reflexivity.
Qed.

(** ** [find_tags]: what it reports *)

Lemma dict_set_keys (d : list (string * Z)) k v x :
  In x (map fst (Py.dict_set String.eqb d k v)) <-> In x (map fst d) \/ x = k.
Proof.
  induction d as [|[k' v'] d IH]; simpl.
  - intuition auto.
  - destruct (k' =? k)%string eqn:E; simpl.
    + apply String.eqb_eq in E. subst. intuition auto.
    + rewrite IH. intuition auto.
Qed.

Lemma dict_set_NoDup (d : list (string * Z)) k v :
  NoDup (map fst d) -> NoDup (map fst (Py.dict_set String.eqb d k v)).
Proof.
  induction d as [|[k' v'] d IH]; simpl; intro H.
  - constructor; [intros [] | constructor].
  - inversion H as [|? ? Hk Hd]; subst.
    destruct (k' =? k)%string eqn:E; simpl; [now constructor|].
    constructor; [|auto]. rewrite dict_set_keys. intros [Hin| ->]; auto.
    rewrite String.eqb_refl in E. discriminate.
Qed.

Lemma dict_get_nonneg (d : list (string * Z)) k :
  Forall (fun kv => 1 <= snd kv) d -> 0 <= Py.dict_get String.eqb d k 0.
Proof.
  induction 1 as [|[k' v'] d H Hd IH]; simpl; [lia|].
  destruct (k' =? k)%string; simpl in *; [lia | exact IH].
Qed.

Lemma dict_set_positive (d : list (string * Z)) k v :
  1 <= v -> Forall (fun kv => 1 <= snd kv) d ->
  Forall (fun kv => 1 <= snd kv) (Py.dict_set String.eqb d k v).
Proof.
  intros Hv. induction 1 as [|[k' v'] d H Hd IH]; simpl.
  - constructor; [exact Hv | constructor].
  - destruct (k' =? k)%string; constructor; auto.
Qed.

Lemma Tag_get_name_inr n st tag :
  Tag_get_name n st = inr tag ->
  In tag (tag_objects st) /\ tag_name tag = n /\
  forall c, In c (tag_objects st) -> tag_name c = n -> c = tag.
Proof.
  unfold Tag_get_name.
  destruct (filter _ (tag_objects st)) as [|t1 [|t2 l]] eqn:E; try discriminate.
  intro H. injection H as <-.
  assert (Hin : In t1 (filter (fun t => (tag_name t =? n)%string) (tag_objects st)))
    by (rewrite E; now left).
  apply filter_In in Hin. destruct Hin as [H1 H2]. apply String.eqb_eq in H2.
  split; [exact H1|]. split; [exact H2|].
  intros c Hc Hn.
  assert (Hc' : In c (filter (fun t => (tag_name t =? n)%string) (tag_objects st))).
  { apply filter_In. split; [exact Hc | now apply String.eqb_eq]. }
  rewrite E in Hc'. destruct Hc' as [<- |[]]. reflexivity.
Qed.

Lemma find_tags_count_spec st ts d0 d :
  find_tags_count ts d0 st = inr d ->
  (forall k, In k (map fst d) <->
             In k (map fst d0) \/
             exists t c, In t ts /\ In c (tag_objects st) /\
                         tag_name c = name t /\ In k (produces c)) /\
  (Forall (fun kv => 1 <= snd kv) d0 -> Forall (fun kv => 1 <= snd kv) d) /\
  (NoDup (map fst d0) -> NoDup (map fst d)).
Proof.
  revert d0. induction ts as [|t ts IH]; intros d0; simpl.
  - intro H. injection H as <-. split; [|auto].
    intro k. split; [auto|]. intros [H|[t [c [[] _]]]]. exact H.
  - destruct (Tag_get_name (name t) st) as [ex|tag] eqn:Hg; [discriminate|].
    apply Tag_get_name_inr in Hg. destruct Hg as [Hg1 [Hg2 Hg3]].
    intro H. apply IH in H. destruct H as [K1 [K2 K3]].
    assert (F : forall ps d1,
              (forall k, In k (map fst
                          (fold_left
                             (fun d p => Py.dict_set String.eqb d p
                                (Py.dict_get String.eqb d (tag_name tag) 0 + 1))
                             ps d1)) <->
                         In k (map fst d1) \/ In k ps) /\
              (Forall (fun kv => 1 <= snd kv) d1 ->
               Forall (fun kv => 1 <= snd kv)
                 (fold_left
                    (fun d p => Py.dict_set String.eqb d p
                       (Py.dict_get String.eqb d (tag_name tag) 0 + 1))
                    ps d1)) /\
              (NoDup (map fst d1) ->
               NoDup (map fst
                 (fold_left
                    (fun d p => Py.dict_set String.eqb d p
                       (Py.dict_get String.eqb d (tag_name tag) 0 + 1))
                    ps d1)))).
    { induction ps as [|p ps IHp]; intro d1; simpl.
      - split; [intuition auto | auto].
      - destruct (IHp (Py.dict_set String.eqb d1 p
                         (Py.dict_get String.eqb d1 (tag_name tag) 0 + 1)))
          as [F1 [F2 F3]].
        split; [|split].
        + intro k. rewrite F1, dict_set_keys. intuition auto.
        + intro Hd. apply F2. apply dict_set_positive; [|exact Hd].
          pose proof (dict_get_nonneg d1 (tag_name tag) Hd). lia.
        + intro Hd. apply F3. now apply dict_set_NoDup. }
    destruct (F (produces tag) d0) as [F1 [F2 F3]].
    split; [|split; auto].
    intro k. rewrite K1, F1. split.
    + intros [[H|H]|[t' [c [H1 H2]]]]; auto.
      * right. exists t, tag. auto.
      * right. exists t', c. tauto.
    + intros [H|[t' [c [[<- |H1] [H2 [H3 H4]]]]]]; auto.
      * left. right. now rewrite <- (Hg3 c H2 H3).
      * right. exists t', c. auto.
Qed.

(** X22: when [find_tags] returns, the names it reports are exactly the
    names produced by the catalog tag of some applied tag, each once and
    with a count of at least 1; a produced name that the observable
    already holds is reported as well, the removal loop removing
    nothing. *)
Theorem find_tags_reports_produced (st : Store) (d : list (string * Z)) (s : Store) :
  find_tags st = Returned d s ->
  (forall k, In k (map fst d) <->
             exists t c, In t (tags (self st)) /\ In c (tag_objects st) /\
                         tag_name c = name t /\ In k (produces c)) /\
  Forall (fun kv => 1 <= snd kv) d /\
  NoDup (map fst d).
Proof.
  unfold find_tags.
  destruct (find_tags_count (tags (self st)) [] st) as [ex|d0] eqn:H;
    [discriminate|].
  rewrite find_tags_strip_id. intro E. injection E as <- _.
  apply find_tags_count_spec in H. destruct H as [K1 [K2 K3]].
  split; [|split].
  - intro k. rewrite K1. simpl. tauto.
  - apply K2. constructor.
  - apply K3. constructor.
Qed.

Lemma find_tags_reports_produced_witness :
  Forall (fun kv => 1 <= snd kv) [("n", 1)] /\ NoDup (map fst [("n", 1)]).
Proof.
  destruct (find_tags_reports_produced
              (Sample.store [Sample.entry "a" 1 None true;
                             Sample.entry "b" 1 None true] Sample.catalog_n)
              [("n", 1)]
              (Sample.store [Sample.entry "a" 1 None true;
                             Sample.entry "b" 1 None true] Sample.catalog_n)
              eq_refl) as [_ [H1 H2]].
  split; [exact H1 | exact H2].
Defined.

(** X23: when some applied tag has no document in the catalog (and the
    catalog holds each name at most once), [find_tags] raises
    [DoesNotExist] and leaves the store as it is. *)
Theorem find_tags_raises_on_unknown_tag (st : Store) :
  NoDup (map tag_name (tag_objects st)) ->
  (exists t, In t (tags (self st)) /\
             forall c, In c (tag_objects st) -> tag_name c <> name t) ->
  find_tags st = Raised DoesNotExist st.
Proof.
  intros Hnd [t [Ht Hc]]. unfold find_tags.
  assert (G : forall n, Tag_get_name n st = inl DoesNotExist \/
                        exists tag, Tag_get_name n st = inr tag).
  { intro n. unfold Tag_get_name.
    destruct (filter _ (tag_objects st)) as [|t1 [|t2 l]] eqn:E; eauto.
    exfalso. clear - Hnd E.
    induction (tag_objects st) as [|c cs IH]; simpl in *; [discriminate|].
    inversion Hnd as [|? ? Hx Hxs]; subst.
    destruct (tag_name c =? n)%string eqn:F; [|auto].
    apply String.eqb_eq in F. injection E as -> E.
    assert (Hin : In t2 (filter (fun t => (tag_name t =? n)%string) cs))
      by (rewrite E; now left).
    apply filter_In in Hin. destruct Hin as [H1 H2].
    apply String.eqb_eq in H2. apply Hx. rewrite F, <- H2. now apply in_map. }
  assert (K : forall ts d0, In t ts ->
                find_tags_count ts d0 st = inl DoesNotExist).
  { induction ts as [|x ts IH]; intros d0 Hin; simpl; [contradiction|].
    destruct (G (name x)) as [Hx|[tag Hx]]; rewrite Hx; [reflexivity|].
    destruct Hin as [-> |Hin]; [|now apply IH].
    apply Tag_get_name_inr in Hx. destruct Hx as [H1 [H2 _]].
    exfalso. now apply (Hc tag). }
  now rewrite (K _ [] Ht).
Qed.

Lemma find_tags_raises_on_unknown_tag_witness :
  find_tags (Sample.store [Sample.entry "zz" 1 None true] Sample.catalog_ab)
  = Raised DoesNotExist
      (Sample.store [Sample.entry "zz" 1 None true] Sample.catalog_ab).
Proof.
  apply find_tags_raises_on_unknown_tag.
  - simpl. constructor; [|constructor; [|constructor]]; simpl.
    + intros [H|H]; [discriminate H | exact H].
    + intro H; exact H.
  - exists (Sample.entry "zz" 1 None true). split; [now left|].
    intros c [<- |[<- |[]]]; discriminate.
Defined.

(** ** [guess_type] on strings that are not blank *)

(** X24: on a string that is not blank, [guess_type] never returns
    [None]: it returns a class only if that class accepts the string and
    no class before it in the order Url, Ip, Email, Hostname, Hash does,
    and it raises [ObservableValidationError], with the string in the
    message, exactly when no class accepts the string. *)
Theorem guess_type_first_match
    (check_type : ObservableClass -> string -> bool) (s : string) :
  Py.strip s <> "" ->
  (forall c, guess_type check_type s = inr (Some c) ->
             check_type c s = true /\
             forall c', In c' (match c with
                               | Url => []
                               | Ip => [Url]
                               | Email => [Url; Ip]
                               | Hostname => [Url; Ip; Email]
                               | Hash => [Url; Ip; Email; Hostname]
                               end) -> check_type c' s = false) /\
  (guess_type check_type s =
     inl (ObservableValidationError
            (s ++ " was not recognized as a viable datatype")%string)
   <-> forall c, check_type c s = false) /\
  (exists r, guess_type check_type s = r /\ r <> inr None).
Proof.
  intro Hs. rewrite (guess_type_not_blank check_type s Hs).
  destruct (check_type Url s) eqn:E1;
    [|destruct (check_type Ip s) eqn:E2;
      [|destruct (check_type Email s) eqn:E3;
        [|destruct (check_type Hostname s) eqn:E4;
          [|destruct (check_type Hash s) eqn:E5]]]].
  all: split; [|split; [|eexists; split; [reflexivity | discriminate]]].
  (* the class returned accepts the string, and is the first to do so *)
  all: try (intros c Hc; discriminate Hc).
  all: try (intros c Hc; injection Hc as <-; split; [assumption|];
            simpl; intros c' Hc';
            repeat (destruct Hc' as [<- | Hc']; [assumption|]);
            contradiction).
  (* the error is raised exactly when no class accepts the string *)
  all: try (split; [discriminate | intro Hall; rewrite Hall in *; discriminate]).
  split; [intros _ c; destruct c; assumption | reflexivity].
Qed.

Lemma guess_type_first_match_witness :
  exists r, guess_type Sample.check_type "1.2.3.4" = r /\ r <> inr None.
Proof.
  assert (H : Py.strip "1.2.3.4" <> "") by discriminate.
  destruct (guess_type_first_match Sample.check_type "1.2.3.4" H)
    as [_ [_ G]].
  exact G.
Defined.

(** ** The tags of the feed [SSLBlackListCerts] *)

Lemma lower_ascii_idempotent c :
  Feed.lower_ascii (Feed.lower_ascii c) = Feed.lower_ascii c.
Proof.
  destruct c as [b0 b1 b2 b3 b4 b5 b6 b7].
  destruct b0, b1, b2, b3, b4, b5, b6, b7; reflexivity.
Qed.

Lemma lower_idempotent s : Feed.lower (Feed.lower s) = Feed.lower s.
Proof.
  induction s as [|c s IH]; simpl; [reflexivity|].
  now rewrite lower_ascii_idempotent, IH.
Qed.

Lemma TYPE_DICT_values ty :
  Feed.TYPE_DICT ty = [] \/
  exists v, Feed.TYPE_DICT ty = [v] /\ Feed.lower v = v.
Proof.
  unfold Feed.TYPE_DICT.
  destruct (ty =? "MITM")%string; [right; eexists; split; reflexivity|].
  destruct (ty =? "C&C")%string; [right; eexists; split; reflexivity|].
  destruct (ty =? "distribution")%string; [right; eexists; split; reflexivity|].
  destruct (ty =? "sinkhole")%string; [right; eexists; split; reflexivity|].
  now left.
Qed.

(** X25: whatever the listing reason, the tags computed for a certificate
    end with ["ssl_fingerprint"], number between one and three, and are
    all in lower case. *)
Theorem ssl_tags_shape (reason : string) :
  last (Feed.ssl_tags reason) "" = "ssl_fingerprint" /\
  (1 <= List.length (Feed.ssl_tags reason) <= 3)%nat /\
  Forall (fun t => Feed.lower t = t) (Feed.ssl_tags reason).
Proof.
  unfold Feed.ssl_tags.
  destruct (TYPE_DICT_values (last (Feed.split_space reason) ""))
    as [-> | [v [-> Hv]]];
    destruct (2 <=? List.length (Feed.split_space reason))%nat; simpl;
    (split; [reflexivity|]); (split; [lia|]);
    repeat constructor; auto using lower_idempotent.
Qed.

Lemma split_space_no_space (s : string) :
  existsb (Ascii.eqb " "%char) (list_ascii_of_string s) = false ->
  Feed.split_space s = [s].
Proof.
  induction s as [|c s IH]; intro H; [reflexivity|].
  cbn [list_ascii_of_string existsb] in H.
  apply orb_false_iff in H. destruct H as [H1 H2].
  cbn [Feed.split_space]. rewrite Ascii.eqb_sym, H1, (IH H2). reflexivity.
Qed.

(** X26: a listing reason without a space gives no family tag: the whole
    reason is looked up as the type, and the tags are the type's tag, if
    any, followed by ["ssl_fingerprint"]. *)
Theorem ssl_tags_single_word (reason : string) :
  existsb (Ascii.eqb " "%char) (list_ascii_of_string reason) = false ->
  Feed.ssl_tags reason = Feed.TYPE_DICT reason ++ ["ssl_fingerprint"].
Proof.
  intro H. unfold Feed.ssl_tags. now rewrite (split_space_no_space _ H).
Qed.

Lemma ssl_tags_single_word_witness :
  Feed.ssl_tags "sinkhole" = Feed.TYPE_DICT "sinkhole" ++ ["ssl_fingerprint"].
Proof. apply ssl_tags_single_word. reflexivity. Defined.

(** ** The theorems on [tag] at sample stores, continued *)

Lemma tag_keeps_names_unique_witness :
  NoDup (tag_names (tags (self (store_of
    (tag Sample.clean Sample.Tag_default_expiration 100 ["a"; "legacy"; " "]
       true None Sample.store_old_new))))).
Proof.
  apply tag_keeps_names_unique.
  simpl. constructor; [|constructor; [|constructor]]; simpl.
  - intros [H|H]; [discriminate H | exact H].
  - intro H; exact H.
Defined.

Lemma tag_uses_given_expiration_witness :
  exists kept news,
    tags (self (store_of
      (tag Sample.clean Sample.Tag_default_expiration 100 ["a"; "b"] false
         (Some 7) Sample.store_b)))
    = kept ++ news /\
    List.length kept = List.length (tags (self Sample.store_b)) /\
    Forall (fun t => expiration t = Some 7) news.
Proof. apply tag_uses_given_expiration. discriminate. Defined.

Lemma tag_stamps_last_tagged_witness :
  exists o s,
    tag Sample.clean Sample.Tag_default_expiration 100 [" "; "a"] false None
      Sample.store_b = Returned o s /\
    last_tagged o = Some 100 /\ self s = o.
Proof.
  eexists. eexists. split; [reflexivity|].
  apply (tag_stamps_last_tagged Sample.clean Sample.Tag_default_expiration
           100 [" "; "a"] false None Sample.store_b); reflexivity.
Defined.

Lemma tag_blank_names_change_nothing_witness :
  tag Sample.clean Sample.Tag_default_expiration 100 [""; "  "] false None
    Sample.store_b = Returned (self Sample.store_b) Sample.store_b.
Proof.
  apply tag_blank_names_change_nothing.
  intros x [<- | [<- | []]]; reflexivity.
Defined.

Lemma tag_refresh_keeps_counts_witness :
  exists o s,
    tag Sample.clean Sample.Tag_default_expiration 100 ["b"] false None
      Sample.store_b = Returned o s /\
    tag_objects s = tag_objects Sample.store_b /\
    tag_names (tags o) = tag_names (tags (self Sample.store_b)).
Proof.
  apply (tag_refresh_keeps_counts Sample.clean Sample.Tag_default_expiration
           100 "b" None Sample.store_b (mkTag "b" 0 [] [] (Some 20))).
  - discriminate.
  - reflexivity.
  - intros m [<- | []]. reflexivity.
Defined.

Lemma tag_restores_freshness_witness :
  exists o s entry,
    tag Sample.clean Sample.Tag_default_expiration 200 ["b"] false None
      (expire_tags 100 Sample.store_b) = Returned o s /\
    filter (named "b") (tags o) = [entry] /\
    fresh entry = true /\ last_seen entry = 200.
Proof.
  apply (tag_restores_freshness Sample.clean Sample.Tag_default_expiration
           100 200 "b" None Sample.store_b (mkTag "b" 0 [] [] (Some 20))
           Sample.store_b).
  - discriminate.
  - simpl. constructor; [intros [] | constructor].
  - reflexivity.
Defined.

(** ** Blank names anywhere in the list *)

(** X27: a plain call of [tag] skips the blank names of its list wherever
    they stand: the outcome is the outcome of the call with the blank
    names left out. *)
Theorem tag_skips_blank_names
    (clean : string -> string) (Tag_default_expiration : option Z)
    (now : Z) (L : list string) (e : option Z) (st : Store) :
  tag clean Tag_default_expiration now L false e st =
  tag clean Tag_default_expiration now
    (filter (fun x => negb (Py.strip x =? "")%string) L) false e st.
Proof.
  unfold tag.
  assert (H : forall tagged e0 s,
            tag_loop clean Tag_default_expiration now L e0 tagged s =
            tag_loop clean Tag_default_expiration now
              (filter (fun x => negb (Py.strip x =? "")%string) L) e0 tagged s).
  { induction L as [|x L IH]; intros tagged e0 s; simpl; [reflexivity|].
    destruct (negb (Py.strip x =? "")%string) eqn:E; simpl.
    - rewrite E.
      destruct (resolve_tag Tag_default_expiration (clean x) s); [|reflexivity].
      apply IH.
    - apply IH. }
  now rewrite H.
Qed.
